(** * RAIL-Train: the AI adapters (services/gemini.ts) and the handlers that
    call them (App.tsx)

    The adapters are asynchronous functions over one module-level object of
    five [Map]s.  JavaScript runs each stretch of code between two [await]s
    without interruption, so an adapter is embedded as a computation over the
    shared cache that either resolves at once or stops at its single [await]
    with the rest of its body as a continuation; the continuation runs later,
    on whatever the cache holds by then.

    No caller changes a value that an adapter returned, so values are plain
    data: the object in the cache and the object handed to the caller are
    not told apart. *)

From Stdlib Require Import ZArith String Ascii List Bool Lia.
From Stdlib Require Import Floats.PrimFloat.
From stdpp Require Import base option list gmap strings.

Set Default Proof Using "Type".
Local Open Scope string_scope.

(** ** JavaScript values *)

(** What [JSON.parse] can return, and [undefined].  Numbers are IEEE 754
    doubles, as in the language. *)
#[warnings="-register-all"]
Inductive value : Type :=
| VUndefined
| VNull
| VBool (b : bool)
| VNumber (n : float)
| VString (s : string)
| VArray (items : list value)
| VObject (props : list (string * value)).

(** [ToBoolean]: [undefined], [null], [false], [+0], [-0], [NaN] and the empty
    string are falsy; every object, the empty array included, is truthy. *)
Definition number_truthy (n : float) : bool := PrimFloat.ltb 0 (PrimFloat.abs n).

Definition string_truthy (s : string) : bool :=
  match s with
  | EmptyString => false
  | String _ _ => true
  end.

Definition truthy (v : value) : bool :=
  match v with
  | VUndefined | VNull => false
  | VBool b => b
  | VNumber n => number_truthy n
  | VString s => string_truthy s
  | VArray _ | VObject _ => true
  end.

(** [a || b] *)
Definition js_or (a b : value) : value := if truthy a then a else b.

(** [text || fallback] where [text] is [string | undefined] *)
Definition text_or (text : option string) (fallback : string) : string :=
  match text with
  | Some s => if string_truthy s then s else fallback
  | None => fallback
  end.

(** ** Strings

    A string is its sequence of code units, each below 256 and held in an
    [ascii].  [toLowerCase] is [String.prototype.toLowerCase] on such
    strings: it lowers the letters A to Z (65 to 90) and the accented capitals
    from 192 to 222, all but the multiplication sign 215, each to the code
    unit 32 above; every other code unit below 256 stays. *)

Definition is_upper (c : ascii) : bool :=
  let n := nat_of_ascii c in
  ((65 <=? n)%nat && (n <=? 90)%nat)
  || ((192 <=? n)%nat && (n <=? 214)%nat)
  || ((216 <=? n)%nat && (n <=? 222)%nat).

Definition lower_char (c : ascii) : ascii :=
  if is_upper c then ascii_of_nat (nat_of_ascii c + 32) else c.

Fixpoint toLowerCase (s : string) : string :=
  match s with
  | EmptyString => EmptyString
  | String c rest => String (lower_char c) (toLowerCase rest)
  end.

(** White space that [String.prototype.trim] strips, among the code units
    below 256. *)
Definition is_space (c : ascii) : bool :=
  let n := nat_of_ascii c in
  ((9 <=? n)%nat && (n <=? 13)%nat) || (n =? 32)%nat || (n =? 160)%nat.

Fixpoint trim_start (s : string) : string :=
  match s with
  | EmptyString => EmptyString
  | String c rest => if is_space c then trim_start rest else s
  end.

Fixpoint trim_end (s : string) : string :=
  match s with
  | EmptyString => EmptyString
  | String c rest =>
      match trim_end rest with
      | EmptyString => if is_space c then EmptyString else String c EmptyString
      | rest' => String c rest'
      end
  end.

Definition trim (s : string) : string := trim_end (trim_start s).

Definition dquote : string := String (ascii_of_nat 34) EmptyString.

(** ** The request sent to the model *)

(** A response schema of the provider ([Type.STRING], [Type.NUMBER],
    [Type.ARRAY], [Type.OBJECT]). *)
#[warnings="-register-all"]
Inductive schema : Type :=
| TString (description : option string) (enum : list string)
| TNumber
| TArray (items : schema)
| TObject (properties : list (string * schema)) (required : list string).

Record config : Type := Config {
  systemInstruction : option string;
  thinkingBudget : Z;
  responseMimeType : option string;
  responseSchema : option schema
}.

Record request : Type := Request {
  model : string;
  contents : string;
  request_config : config
}.

(** How the promise of [ai.models.generateContent] settles: it rejects with
    an error, or fulfils with a response whose [text] is a string or
    [undefined]. *)
Inductive outcome : Type :=
| Rejected (error : string)
| Fulfilled (text : option string).

(** ** The cache *)

Inductive cache_name : Type := Search | Status | Suggestions | Schedules | Coaches.

#[global] Instance cache_name_eq_dec : EqDecision cache_name.
Proof. solve_decision. Defined.

(** [const cache = { search, status, suggestions, schedules, coaches }] *)
Record cache : Type := Cache {
  search : gmap string value;
  status : gmap string value;
  suggestions : gmap string value;
  schedules : gmap string value;
  coaches : gmap string value
}.

Definition empty_cache : cache := Cache ∅ ∅ ∅ ∅ ∅.

Definition select (m : cache_name) (c : cache) : gmap string value :=
  match m with
  | Search => search c
  | Status => status c
  | Suggestions => suggestions c
  | Schedules => schedules c
  | Coaches => coaches c
  end.

Definition modify (m : cache_name) (f : gmap string value -> gmap string value)
    (c : cache) : cache :=
  match m with
  | Search => Cache (f (search c)) (status c) (suggestions c) (schedules c) (coaches c)
  | Status => Cache (search c) (f (status c)) (suggestions c) (schedules c) (coaches c)
  | Suggestions => Cache (search c) (status c) (f (suggestions c)) (schedules c) (coaches c)
  | Schedules => Cache (search c) (status c) (suggestions c) (f (schedules c)) (coaches c)
  | Coaches => Cache (search c) (status c) (suggestions c) (schedules c) (f (coaches c))
  end.

(** ** Computations over the cache

    A stretch of synchronous code: it reads and writes the cache, completes
    normally or throws, and leaves a trace of what it did to the cache, to
    [JSON.parse] and to the model. *)

Inductive op : Type :=
| MapHas (m : cache_name) (key : string)
| MapGet (m : cache_name) (key : string)
| MapSet (m : cache_name) (key : string) (v : value)
| JsonParse (text : string)
| Generate (req : request).

Inductive completion (A : Type) : Type :=
| Normal (a : A)
| Throw (error : string).
Arguments Normal {A} a.
Arguments Throw {A} error.

Record run (A : Type) : Type := Run {
  result : completion A;
  final : cache;
  trace : list op
}.
Arguments Run {A} result final trace.
Arguments result {A} r.
Arguments final {A} r.
Arguments trace {A} r.

Definition M (A : Type) : Type := cache -> run A.

Definition ret {A} (a : A) : M A := fun c => Run (Normal a) c [].

Definition throw {A} (error : string) : M A := fun c => Run (Throw error) c [].

Definition bind {A B} (m : M A) (k : A -> M B) : M B := fun c =>
  let r := m c in
  match result r with
  | Normal a => let r' := k a (final r) in Run (result r') (final r') (trace r ++ trace r')
  | Throw e => Run (Throw e) (final r) (trace r)
  end.

(** [try { body } catch (error) { handler }] *)
Definition try_catch {A} (body : M A) (handler : string -> M A) : M A := fun c =>
  let r := body c in
  match result r with
  | Normal a => r
  | Throw e => let r' := handler e (final r) in Run (result r') (final r') (trace r ++ trace r')
  end.

#[global] Instance M_ret : MRet M := @ret.
#[global] Instance M_bind : MBind M := fun A B k m => bind m k.

(** [cache.m.has(key)], [cache.m.get(key)], [cache.m.set(key, v)] *)
Definition Map_has (m : cache_name) (key : string) : M bool := fun c =>
  Run (Normal (bool_decide (is_Some (select m c !! key)))) c [MapHas m key].

Definition Map_get (m : cache_name) (key : string) : M value := fun c =>
  Run (Normal (default VUndefined (select m c !! key))) c [MapGet m key].

Definition Map_set (m : cache_name) (key : string) (v : value) : M unit := fun c =>
  Run (Normal tt) (modify m (insert key v) c) [MapSet m key v].

(** The host's [JSON.parse]; [None] stands for the [SyntaxError] it throws. *)
Class Json := JSON_parse_text : string -> option value.

Definition JSON_parse `{Json} (text : string) : M value := fun c =>
  Run (match JSON_parse_text text with
       | Some v => Normal v
       | None => Throw "SyntaxError"
       end) c [JsonParse text].

(** [await promise]: the value the promise fulfils with, or its rejection
    thrown. *)
Definition await (o : outcome) : M (option string) :=
  match o with
  | Rejected error => throw error
  | Fulfilled text => ret text
  end.

(** What a call of an [async] function has come to when it gives control
    back: its promise is resolved, or it waits for the model and will go on
    with [resume] once the request settles. *)
Inductive promise (A : Type) : Type :=
| Resolved (a : A)
| Awaiting (req : request) (resume : outcome -> M A).
Arguments Resolved {A} a.
Arguments Awaiting {A} req resume.

(** [return v] before any [await] *)
Definition resolve {A} (a : A) : M (promise A) := ret (Resolved a).

(** [const response = await ai.models.generateContent(req); rest] *)
Definition generateContent {A} (req : request) (rest : outcome -> M A) : M (promise A) :=
  fun c => Run (Normal (Awaiting req rest)) c [Generate req].

(** ** The adapters (services/gemini.ts) *)

Definition plain : schema := TString None [].

Definition json_config (budget : Z) (s : schema) : config :=
  Config None budget (Some "application/json") (Some s).

(** [getStationSuggestionsAI] *)
Definition suggestions_request (query : string) : request :=
  Request "gemini-3-flash-preview"
    ("List 5 popular Indian railway stations matching " ++ dquote ++ query ++ dquote ++ ".")
    (json_config 0
       (TArray (TString (Some "Station name and code in format 'Station (CODE)'") []))).

Definition getStationSuggestionsAI `{Json} (query : string) : M (promise value) :=
  if negb (string_truthy query) || (String.length query <? 2)%nat then resolve (VArray [])
  else
    let cacheKey := toLowerCase query in
    hit ← Map_has Suggestions cacheKey;
    if hit : bool then
      stored ← Map_get Suggestions cacheKey;
      resolve (js_or stored (VArray []))
    else
      generateContent (suggestions_request query) (fun settled =>
        try_catch
          (response ← await settled;
           results ← JSON_parse (text_or response "[]");
           Map_set Suggestions cacheKey results;;
           mret results)
          (fun error => mret (VArray []))).

(** [getCoachPositionAI] *)
Definition coach_request (trainNumber : string) : request :=
  Request "gemini-3-pro-preview"
    ("Provide the coach position sequence for train " ++ trainNumber ++ " in India.")
    (json_config 32768
       (TObject
          [("trainName", plain);
           ("coaches",
            TArray (TObject
              [("code", TString (Some "e.g., A1, B2, S3, GS") []);
               ("type", TString None
                  ["engine"; "ac1"; "ac2"; "ac3"; "sleeper"; "general"; "pantry"; "luggage"]);
               ("position", TNumber)]
              []))]
          ["trainName"; "coaches"])).

Definition getCoachPositionAI `{Json} (trainNumber : string) : M (promise value) :=
  hit ← Map_has Coaches trainNumber;
  if hit : bool then
    stored ← Map_get Coaches trainNumber;
    resolve stored
  else
    generateContent (coach_request trainNumber) (fun settled =>
      try_catch
        (response ← await settled;
         result ← JSON_parse (text_or response "null");
         Map_set Coaches trainNumber result;;
         mret result)
        (fun error => mret VNull)).

(** [getTrainScheduleAI] *)
Definition schedule_request (trainNumber : string) : request :=
  Request "gemini-3-pro-preview"
    ("Provide full route schedule for train " ++ trainNumber
       ++ ". Include halt time (e.g. 5 min) and estimated platform number for each stop.")
    (json_config 32768
       (TObject
          [("trainName", plain);
           ("stops",
            TArray (TObject
              [("station", plain); ("arrivalTime", plain); ("departureTime", plain);
               ("haltTime", plain); ("platform", plain); ("day", TNumber)]
              []))]
          ["trainName"; "stops"])).

Definition getTrainScheduleAI `{Json} (trainNumber : string) : M (promise value) :=
  hit ← Map_has Schedules trainNumber;
  if hit : bool then
    stored ← Map_get Schedules trainNumber;
    resolve stored
  else
    generateContent (schedule_request trainNumber) (fun settled =>
      try_catch
        (response ← await settled;
         result ← JSON_parse (text_or response "null");
         Map_set Schedules trainNumber result;;
         mret result)
        (fun error => mret VNull)).

(** [getRecentAlertsAI] *)
Definition alerts_request : request :=
  Request "gemini-3-flash-preview"
    "Generate 4 realistic current Indian railway alerts (delays, platform changes, or weather impacts)."
    (json_config 0
       (TArray (TObject
          [("id", plain);
           ("type", TString None ["delay"; "cancellation"; "info"]);
           ("title", plain); ("description", plain); ("time", plain)]
          []))).

Definition getRecentAlertsAI `{Json} : M (promise value) :=
  generateContent alerts_request (fun settled =>
    try_catch
      (response ← await settled;
       JSON_parse (text_or response "[]"))
      (fun error => mret (VArray []))).

(** [searchTrainsAI] *)
Definition search_request (from to : string) : request :=
  Request "gemini-3-pro-preview"
    ("Trains from " ++ from ++ " to " ++ to ++ ".")
    (json_config 32768
       (TArray (TObject
          [("number", plain); ("name", plain); ("source", plain);
           ("destination", plain); ("departureTime", plain); ("arrivalTime", plain)]
          []))).

Definition searchTrainsAI `{Json} (from to : string) : M (promise value) :=
  let cacheKey := toLowerCase from ++ "-" ++ toLowerCase to in
  hit ← Map_has Search cacheKey;
  if hit : bool then
    stored ← Map_get Search cacheKey;
    resolve stored
  else
    generateContent (search_request from to) (fun settled =>
      try_catch
        (response ← await settled;
         results ← JSON_parse (text_or response "[]");
         Map_set Search cacheKey results;;
         mret results)
        (fun error => mret (VArray []))).

(** [getLiveStatusAI] *)
Definition status_request (trainNumber : string) : request :=
  Request "gemini-3-pro-preview"
    ("Live status for " ++ trainNumber ++ ".")
    (json_config 32768
       (TObject
          [("currentStation", plain); ("status", plain); ("delay", plain);
           ("nextStations",
            TArray (TObject
              [("station", plain); ("expectedTime", plain); ("platform", plain)]
              []))]
          [])).

Definition getLiveStatusAI `{Json} (trainNumber : string) : M (promise value) :=
  hit ← Map_has Status trainNumber;
  if hit : bool then
    stored ← Map_get Status trainNumber;
    resolve stored
  else
    generateContent (status_request trainNumber) (fun settled =>
      try_catch
        (response ← await settled;
         result ← JSON_parse (text_or response "null");
         Map_set Status trainNumber result;;
         mret result)
        (fun error => mret VNull)).

(** ** The assistant stream

    [ai.models.generateContentStream] rejects, or fulfils with an iterator
    that yields chunks, each with a [text] that is a string or [undefined],
    and then ends or throws.  The adapter does not touch the cache; what it
    does is the list of texts it hands to [onChunk] and the value it
    returns.  [onChunk] is the caller's; the one caller passes a state
    setter, which does not throw. *)

Inductive stream_outcome : Type :=
| StreamRejected (error : string)
| StreamFulfilled (chunks : list (option string)) (broken : option string).

Definition assistant_request (query : string) : request :=
  Request "gemini-3-flash-preview" query
    (Config
       (Some "You are RailBot, a helpful AI assistant for the 'TheRailTrain' app. Be extremely concise, polite, and accurate.")
       0 None None).

Definition apology : string := "I'm having trouble connecting right now. Please try again!".

(** [for await (const chunk of responseStream) { ... }] from [fullText] on:
    the final [fullText] and the arguments of the [onChunk] calls. *)
Fixpoint for_await (chunks : list (option string)) (fullText : string) : string * list string :=
  match chunks with
  | [] => (fullText, [])
  | Some text :: rest =>
      if string_truthy text then
        let fullText' := fullText ++ text in
        let '(last, delivered) := for_await rest fullText' in
        (last, fullText' :: delivered)
      else for_await rest fullText
  | None :: rest => for_await rest fullText
  end.

Record streamed : Type := Streamed {
  issued : request;
  delivered : list string;
  returned : completion string
}.

(** The [try] block: what it delivers, and how it completes. *)
Definition stream_body (settled : stream_outcome) : completion string * list string :=
  match settled with
  | StreamRejected error => (Throw error, [])
  | StreamFulfilled chunks broken =>
      let '(fullText, delivered) := for_await chunks EmptyString in
      match broken with
      | None => (Normal fullText, delivered)
      | Some error => (Throw error, delivered)
      end
  end.

Definition getRailAssistantResponseStream (query : string) (settled : stream_outcome)
    : streamed :=
  match stream_body settled with
  | (Normal fullText, delivered) => Streamed (assistant_request query) delivered (Normal fullText)
  | (Throw error, delivered) =>
      Streamed (assistant_request query) (delivered ++ [apology]) (Normal "Error")
  end.

(** ** Calls, alone and overlapping *)

(** A call of one of the six adapters built on [generateContent]. *)
Inductive call : Type :=
| StationSuggestions (query : string)
| CoachPosition (trainNumber : string)
| TrainSchedule (trainNumber : string)
| RecentAlerts
| SearchTrains (from to : string)
| LiveStatus (trainNumber : string).

Definition invoke `{Json} (c : call) : M (promise value) :=
  match c with
  | StationSuggestions query => getStationSuggestionsAI query
  | CoachPosition trainNumber => getCoachPositionAI trainNumber
  | TrainSchedule trainNumber => getTrainScheduleAI trainNumber
  | RecentAlerts => getRecentAlertsAI
  | SearchTrains from to => searchTrainsAI from to
  | LiveStatus trainNumber => getLiveStatusAI trainNumber
  end.

(** A call that nothing else overlaps: the request, if one is made, settles
    with [settled] before any other code runs. *)
Definition alone `{Json} (c : call) (settled : outcome) : M value :=
  p ← invoke c;
  match p with
  | Resolved v => mret v
  | Awaiting _ resume => resume settled
  end.

(** Calls that overlap.  The system is the cache, the calls that wait for
    the model, and what the finished calls returned.  An event starts a call
    (its code up to the [await] runs) or settles the request of a waiting
    call (the rest of its code runs, on the cache as it is by then). *)
Record task : Type := Task {
  task_call : call;
  task_resume : outcome -> M value
}.

Record system : Type := System {
  store : cache;
  inflight : list task;
  finished : list (call * completion value)
}.

Definition boot : system := System empty_cache [] [].

Inductive event : Type :=
| Start (c : call)
| Settle (i : nat) (settled : outcome).

Definition step `{Json} (sys : system) (e : event) : system :=
  match e with
  | Start c =>
      let r := invoke c (store sys) in
      match result r with
      | Normal (Resolved v) =>
          System (final r) (inflight sys) (finished sys ++ [(c, Normal v)])
      | Normal (Awaiting _ resume) =>
          System (final r) (inflight sys ++ [Task c resume]) (finished sys)
      | Throw error =>
          System (final r) (inflight sys) (finished sys ++ [(c, Throw error)])
      end
  | Settle i settled =>
      match inflight sys !! i with
      | Some t =>
          let r := task_resume t settled (store sys) in
          System (final r) (delete i (inflight sys)) (finished sys ++ [(task_call t, result r)])
      | None => sys
      end
  end.

Definition steps `{Json} (sys : system) (events : list event) : system :=
  foldl step sys events.

(** The entry of the cache that a call looks up and, on a miss, fills. *)
Definition entry (c : call) : option (cache_name * string) :=
  match c with
  | StationSuggestions query =>
      if negb (string_truthy query) || (String.length query <? 2)%nat then None
      else Some (Suggestions, toLowerCase query)
  | CoachPosition trainNumber => Some (Coaches, trainNumber)
  | TrainSchedule trainNumber => Some (Schedules, trainNumber)
  | RecentAlerts => None
  | SearchTrains from to => Some (Search, toLowerCase from ++ "-" ++ toLowerCase to)
  | LiveStatus trainNumber => Some (Status, trainNumber)
  end.

(** What a hit hands back for a stored value: the value itself, except that
    [getStationSuggestionsAI] returns [stored || []]. *)
Definition reread (c : call) (stored : value) : value :=
  match c with
  | StationSuggestions _ => js_or stored (VArray [])
  | _ => stored
  end.

(** The value an adapter falls back to in its [catch]. *)
Definition fallback (c : call) : value :=
  match c with
  | StationSuggestions _ | RecentAlerts | SearchTrains _ _ => VArray []
  | CoachPosition _ | TrainSchedule _ | LiveStatus _ => VNull
  end.

(** The text an adapter parses when the response has none. *)
Definition default_text (c : call) : string :=
  match c with
  | StationSuggestions _ | RecentAlerts | SearchTrains _ _ => "[]"
  | CoachPosition _ | TrainSchedule _ | LiveStatus _ => "null"
  end.

(** The request ends in the [catch]: it rejected, or its text does not parse. *)
Definition fails `{Json} (c : call) (settled : outcome) : bool :=
  match settled with
  | Rejected _ => true
  | Fulfilled text =>
      match JSON_parse_text (text_or text (default_text c)) with
      | Some _ => false
      | None => true
      end
  end.


(** The assistant stream ends in the [catch]: the request rejected, or the
    iteration threw. *)
Definition stream_failed (settled : stream_outcome) : bool :=
  match settled with
  | StreamRejected _ | StreamFulfilled _ (Some _) => true
  | StreamFulfilled _ None => false
  end.

Definition is_generate (o : op) : bool :=
  match o with Generate _ => true | _ => false end.

Definition is_parse (o : op) : bool :=
  match o with JsonParse _ => true | _ => false end.

Definition is_write (o : op) : bool :=
  match o with MapSet _ _ _ => true | _ => false end.

(** Two strings that differ only in the case of letters: the same length,
    and at each position the same code unit or the two cases of one letter. *)
Definition same_letter (a b : ascii) : bool :=
  Ascii.eqb a b
  || (is_upper a && Ascii.eqb b (lower_char a))
  || (is_upper b && Ascii.eqb a (lower_char b)).

Fixpoint case_variant (s1 s2 : string) : bool :=
  match s1, s2 with
  | EmptyString, EmptyString => true
  | String a r1, String b r2 => same_letter a b && case_variant r1 r2
  | _, _ => false
  end.

(** ** The handlers (App.tsx) *)

Inductive AppView : Type :=
| home | view_search | live | pnr | schedule | alerts | view_coaches | live_search.

Record Train : Type := MkTrain {
  number : string;
  name : string;
  source : string;
  destination : string;
  departureTime : string;
  arrivalTime : string;
  runningDays : list string;
  classes : list string
}.

Inductive role : Type := user | bot.

(** The state of the component that the handlers read. *)
Record ui : Type := Ui {
  searchFrom : string;
  searchTo : string;
  liveSearchInput : string;
  scheduleInput : string;
  coachInput : string;
  botInput : string;
  isBotTyping : bool
}.

(** The state setters and the other synchronous effects of a handler. *)
Inductive update : Type :=
| PreventDefault
| SetIsLoading (b : bool)
| SetView (v : AppView)
| SetTrainResults (results : value)
| SetLiveStatus (status : value)
| SetSelectedTrain (t : Train)
| SetScheduleData (data : value)
| SetCoachData (data : value)
| SetBotInput (s : string)
| AppendChat (r : role) (text : string)
| ReplaceLastBot (text : string)
| SetIsBotTyping (b : bool).

(** The body of an [async] handler: updates in sequence, [await adapter(..)]
    with the rest of the body as a continuation, [return]. *)
Inductive handler : Type :=
| Finish
| Do (u : update) (next : handler)
| AwaitCall (c : call) (next : value -> handler)
| AwaitStream (query : string) (onChunk : string -> update) (next : string -> handler).

Definition handleSearch (st : ui) : handler :=
  Do PreventDefault (
  if negb (string_truthy (searchFrom st)) || negb (string_truthy (searchTo st)) then Finish
  else
    Do (SetIsLoading true) (
    Do (SetView view_search) (
    AwaitCall (SearchTrains (searchFrom st) (searchTo st)) (fun results =>
    Do (SetTrainResults results) (
    Do (SetIsLoading false) Finish))))).

Definition handleLiveSearch (st : ui) : handler :=
  Do PreventDefault (
  if negb (string_truthy (liveSearchInput st)) then Finish
  else
    Do (SetIsLoading true) (
    Do (SetLiveStatus VNull) (
    Do (SetSelectedTrain
          (MkTrain (liveSearchInput st) ("Voyager " ++ liveSearchInput st)
             "---" "---" "--:--" "--:--" [] [])) (
    Do (SetView live) (
    AwaitCall (LiveStatus (liveSearchInput st)) (fun status =>
    Do (SetLiveStatus status) (
    Do (SetIsLoading false) Finish))))))).

Definition handleTrainClick (train : Train) : handler :=
  Do (SetSelectedTrain train) (
  Do (SetLiveStatus VNull) (
  Do (SetView live) (
  Do (SetIsLoading true) (
  AwaitCall (LiveStatus (number train)) (fun status =>
  Do (SetLiveStatus status) (
  Do (SetIsLoading false) Finish)))))).

Definition handleScheduleSearch (st : ui) : handler :=
  Do PreventDefault (
  if negb (string_truthy (scheduleInput st)) then Finish
  else
    Do (SetIsLoading true) (
    AwaitCall (TrainSchedule (scheduleInput st)) (fun data =>
    Do (SetScheduleData data) (
    Do (SetIsLoading false) Finish)))).

Definition handleCoachSearch (st : ui) : handler :=
  Do PreventDefault (
  if negb (string_truthy (coachInput st)) then Finish
  else
    Do (SetIsLoading true) (
    AwaitCall (CoachPosition (coachInput st)) (fun data =>
    Do (SetCoachData data) (
    Do (SetIsLoading false) Finish)))).

Definition handleSendMessage (st : ui) : handler :=
  if negb (string_truthy (trim (botInput st))) || isBotTyping st then Finish
  else
    let userMsg := botInput st in
    Do (SetBotInput EmptyString) (
    Do (AppendChat user userMsg) (
    Do (SetIsBotTyping true) (
    Do (AppendChat bot EmptyString) (
    AwaitStream userMsg (fun streamedText => ReplaceLastBot streamedText) (fun _ =>
    Do (SetIsBotTyping false) Finish))))).

(** What happens during one invocation of a handler, in order.  The model
    answers a request as [world] says; an adapter that throws would end the
    handler there. *)
Inductive happening : Type :=
| Updated (u : update)
| Called (c : call)
| CalledStream (query : string)
| Issued (req : request)
| Answered (req : request)
| Returned
| Raised (error : string).

Fixpoint perform `{Json} (world : request -> outcome) (stream_world : request -> stream_outcome)
    (h : handler) (c : cache) : list happening :=
  match h with
  | Finish => []
  | Do u next => Updated u :: perform world stream_world next c
  | AwaitCall call next =>
      let r := invoke call c in
      match result r with
      | Normal (Resolved v) =>
          Called call :: Returned :: perform world stream_world (next v) (final r)
      | Normal (Awaiting req resume) =>
          let r' := resume (world req) (final r) in
          Called call :: Issued req :: Answered req ::
          match result r' with
          | Normal v => Returned :: perform world stream_world (next v) (final r')
          | Throw error => [Raised error]
          end
      | Throw error => [Called call; Raised error]
      end
  | AwaitStream query onChunk next =>
      let r := getRailAssistantResponseStream query (stream_world (assistant_request query)) in
      CalledStream query :: Issued (issued r)
        :: map (fun text => Updated (onChunk text)) (delivered r)
        ++ Answered (issued r)
        :: match returned r with
           | Normal v => Returned :: perform world stream_world (next v) c
           | Throw error => [Raised error]
           end
  end.

Definition is_adapter_call (h : happening) : bool :=
  match h with Called _ | CalledStream _ => true | _ => false end.

Definition adapter_calls (l : list happening) : nat :=
  length (List.filter is_adapter_call l).

(** The greatest number of requests awaiting their answer at one time, with
    [pending] of them at the start. *)
Fixpoint peak_outstanding (pending : nat) (l : list happening) : nat :=
  match l with
  | [] => pending
  | Issued _ :: rest => peak_outstanding (S pending) rest
  | Answered _ :: rest => Nat.max pending (peak_outstanding (pred pending) rest)
  | _ :: rest => peak_outstanding pending rest
  end.

(** The rest of an adapter after its [await], in closed form: what the
    proofs below show every [resume] to compute. *)
Definition after `{Json} (c : call) (settled : outcome) : M value := fun s =>
  match settled with
  | Rejected _ => Run (Normal (fallback c)) s []
  | Fulfilled text =>
      let t := text_or text (default_text c) in
      match JSON_parse_text t with
      | None => Run (Normal (fallback c)) s [JsonParse t]
      | Some v =>
          match entry c with
          | Some (m, k) => Run (Normal v) (modify m (insert k v) s) [JsonParse t; MapSet m k v]
          | None => Run (Normal v) s [JsonParse t]
          end
      end
  end.

(** ** A parser to run the adapters with

    [JSON.parse] restricted to the texts made of [null], [true], [false],
    integers of at most fifteen digits, strings without escapes, and arrays
    of these; on such a text it returns what [JSON.parse] returns.  The
    theorems hold for every parser; this one instantiates them. *)

Definition is_json_space (c : ascii) : bool :=
  let n := nat_of_ascii c in
  (n =? 32)%nat || (n =? 9)%nat || (n =? 10)%nat || (n =? 13)%nat.

Fixpoint skip_ws (s : string) : string :=
  match s with
  | EmptyString => EmptyString
  | String c rest => if is_json_space c then skip_ws rest else s
  end.

Definition keyword (word : string) (v : value) (s : string) : option (value * string) :=
  if String.prefix word s
  then Some (v, String.substring (String.length word) (String.length s - String.length word) s)
  else None.

Fixpoint string_body (s : string) : option (string * string) :=
  match s with
  | EmptyString => None
  | String c rest =>
      let n := nat_of_ascii c in
      if (n =? 34)%nat then Some (EmptyString, rest)
      else if (n =? 92)%nat || (n <? 32)%nat then None
      else
        match string_body rest with
        | Some (str, rest') => Some (String c str, rest')
        | None => None
        end
  end.

Definition digit_value (c : ascii) : option float :=
  let n := nat_of_ascii c in
  if (48 <=? n)%nat && (n <=? 57)%nat
  then Some (Nat.iter (n - 48) (fun d => d + 1)%float 0%float)
  else None.

Fixpoint more_digits (s : string) (acc : float) (count : nat) : float * nat * string :=
  match s with
  | EmptyString => (acc, count, s)
  | String c rest =>
      match digit_value c with
      | Some d => more_digits rest (acc * 10 + d)%float (S count)
      | None => (acc, count, s)
      end
  end.

Definition continues_number (s : string) : bool :=
  match s with
  | EmptyString => false
  | String c _ =>
      match digit_value c with
      | Some _ => true
      | None => Ascii.eqb c "." || Ascii.eqb c "e" || Ascii.eqb c "E"
      end
  end.

Definition parse_number (s : string) : option (value * string) :=
  let '(negative, s1) :=
    match s with
    | String "-" rest => (true, rest)
    | _ => (false, s)
    end in
  match s1 with
  | EmptyString => None
  | String c rest =>
      match digit_value c with
      | None => None
      | Some d =>
          let '(n, count, rest') :=
            if Ascii.eqb c "0" then (d, 1%nat, rest) else more_digits rest d 1 in
          if (15 <? count)%nat || continues_number rest' then None
          else Some (VNumber (if negative : bool then - n else n)%float, rest')
      end
  end.

Fixpoint parse_value (fuel : nat) (s : string) : option (value * string) :=
  match fuel with
  | O => None
  | S fuel' =>
      match skip_ws s with
      | EmptyString => None
      | String c rest =>
          if Ascii.eqb c "n" then keyword "null" VNull (String c rest)
          else if Ascii.eqb c "t" then keyword "true" (VBool true) (String c rest)
          else if Ascii.eqb c "f" then keyword "false" (VBool false) (String c rest)
          else if (nat_of_ascii c =? 34)%nat then
            match string_body rest with
            | Some (str, rest') => Some (VString str, rest')
            | None => None
            end
          else if Ascii.eqb c "[" then
            match skip_ws rest with
            | String "]" rest' => Some (VArray [], rest')
            | _ =>
                match parse_elements fuel' rest with
                | Some (items, rest') => Some (VArray items, rest')
                | None => None
                end
            end
          else parse_number (String c rest)
      end
  end
with parse_elements (fuel : nat) (s : string) : option (list value * string) :=
  match fuel with
  | O => None
  | S fuel' =>
      match parse_value fuel' s with
      | None => None
      | Some (v, rest) =>
          match skip_ws rest with
          | String "," rest' =>
              match parse_elements fuel' rest' with
              | Some (vs, rest'') => Some (v :: vs, rest'')
              | None => None
              end
          | String "]" rest' => Some ([v], rest')
          | _ => None
          end
      end
  end.

Definition json_fragment : Json := fun text =>
  match parse_value (2 * String.length text + 2) text with
  | Some (v, rest) =>
      match skip_ws rest with
      | EmptyString => Some v
      | String _ _ => None
      end
  | None => None
  end.

(** A waiting call whose continuation is the rest of its adapter. *)
Definition faithful `{Json} (t : task) : Prop :=
  forall settled s, task_resume t settled s = after (task_call t) settled s.

(** Sample responses. *)
Definition quoted (s : string) : string := dquote ++ s ++ dquote.

(** Capital and small e with acute accent (201 and 233), and the
    multiplication sign (215). *)
Definition Eacute : string := String (ascii_of_nat 201) EmptyString.

Definition eacute : string := String (ascii_of_nat 233) EmptyString.

Definition times_sign : string := String (ascii_of_nat 215) EmptyString.

Definition rajdhani_text : string := "[" ++ quoted "12951 Mumbai Rajdhani" ++ "]".

Definition duronto_text : string := "[" ++ quoted "12263 Pune Duronto" ++ "]".

Definition fog_text : string := "[" ++ quoted "Fog: 12951 delayed by 40 min" ++ "]".

Definition platform_text : string := "[" ++ quoted "12263 moved to platform 5" ++ "]".

(** ** The adapters, further *)

(** The request an adapter sends for a call. *)
Definition request_of (c : call) : request :=
  match c with
  | StationSuggestions query => suggestions_request query
  | CoachPosition trainNumber => coach_request trainNumber
  | TrainSchedule trainNumber => schedule_request trainNumber
  | RecentAlerts => alerts_request
  | SearchTrains from to => search_request from to
  | LiveStatus trainNumber => status_request trainNumber
  end.

(** The number of entries in the five maps. *)
Definition entries (c : cache) : nat :=
  size (search c) + size (status c) + size (suggestions c) + size (schedules c)
  + size (coaches c).

Definition is_settle (e : event) : bool :=
  match e with Settle _ _ => true | Start _ => false end.

(** The texts of the chunks that have a non-empty one, in order. *)
Fixpoint truthy_texts (chunks : list (option string)) : list string :=
  match chunks with
  | [] => []
  | Some text :: rest =>
      if string_truthy text then text :: truthy_texts rest else truthy_texts rest
  | None :: rest => truthy_texts rest
  end.

Fixpoint join (texts : list string) : string :=
  match texts with
  | [] => EmptyString
  | text :: rest => text ++ join rest
  end.

Fixpoint contains_hyphen (s : string) : bool :=
  match s with
  | EmptyString => false
  | String c rest => Ascii.eqb c "-" || contains_hyphen rest
  end.

(** ** The component, further (App.tsx) *)

(** [getCoachColor] *)
Definition getCoachColor (type : string) : string :=
  if String.eqb type "engine" then "bg-voyager-midnight text-white"
  else if String.eqb type "ac1" then "bg-indigo-900 text-white"
  else if String.eqb type "ac2" then "bg-indigo-700 text-white"
  else if String.eqb type "ac3" then "bg-indigo-500 text-white"
  else if String.eqb type "sleeper" then "bg-teal-600 text-white"
  else if String.eqb type "pantry" then "bg-amber-400 text-black"
  else if String.eqb type "luggage" then "bg-slate-500 text-white"
  else "bg-orange-400 text-black".

(** The values of [Coach.type]. *)
Definition coach_types : list string :=
  ["engine"; "ac1"; "ac2"; "ac3"; "sleeper"; "general"; "pantry"; "luggage"].

(** [value.replace(/\D/g, '')]: the digits of the text, in order. *)
Definition is_digit (c : ascii) : bool :=
  let n := nat_of_ascii c in (48 <=? n)%nat && (n <=? 57)%nat.

Fixpoint only_digits (s : string) : string :=
  match s with
  | EmptyString => EmptyString
  | String c rest => if is_digit c then String c (only_digits rest) else only_digits rest
  end.

Fixpoint all_digits (s : string) : bool :=
  match s with
  | EmptyString => true
  | String c rest => is_digit c && all_digits rest
  end.

(** What sets [liveSearchInput]: typing in the box, and the two history
    buttons; and what sets [pnrInput]: typing in the box. *)
Inductive live_input_event : Type :=
| TypedLive (raw : string)
| Picked12002
| Picked12423.

Definition live_input_step (liveSearchInput : string) (e : live_input_event) : string :=
  match e with
  | TypedLive raw => only_digits raw
  | Picked12002 => "12002"
  | Picked12423 => "12423"
  end.

Definition pnr_input_step (pnrInput : string) (raw : string) : string := only_digits raw.

(** A text made of white space only: what [trim] empties. *)
Fixpoint blank (s : string) : bool :=
  match s with
  | EmptyString => true
  | String c rest => is_space c && blank rest
  end.

(** The state that the handlers write. *)
Record screen : Type := Screen {
  scr_view : AppView;
  scr_isLoading : bool;
  scr_trainResults : value;
  scr_liveStatus : value;
  scr_selectedTrain : option Train;
  scr_scheduleData : value;
  scr_coachData : value;
  scr_botInput : string;
  scr_chatMessages : list (role * string);
  scr_isBotTyping : bool
}.

(** The updater that [handleSendMessage] passes for each chunk:
    [prev => last && last.role === 'bot'
       ? [...prev.slice(0, -1), { role: 'bot', text }] : prev] *)
Definition replace_last_bot (text : string) (prev : list (role * string))
    : list (role * string) :=
  match last prev with
  | Some (bot, _) => removelast prev ++ [(bot, text)]
  | _ => prev
  end.

(** One state setter applied. *)
Definition apply_update (u : update) (s : screen) : screen :=
  match u with
  | PreventDefault => s
  | SetIsLoading b =>
      Screen (scr_view s) b (scr_trainResults s) (scr_liveStatus s) (scr_selectedTrain s)
        (scr_scheduleData s) (scr_coachData s) (scr_botInput s) (scr_chatMessages s)
        (scr_isBotTyping s)
  | SetView v =>
      Screen v (scr_isLoading s) (scr_trainResults s) (scr_liveStatus s) (scr_selectedTrain s)
        (scr_scheduleData s) (scr_coachData s) (scr_botInput s) (scr_chatMessages s)
        (scr_isBotTyping s)
  | SetTrainResults results =>
      Screen (scr_view s) (scr_isLoading s) results (scr_liveStatus s) (scr_selectedTrain s)
        (scr_scheduleData s) (scr_coachData s) (scr_botInput s) (scr_chatMessages s)
        (scr_isBotTyping s)
  | SetLiveStatus st =>
      Screen (scr_view s) (scr_isLoading s) (scr_trainResults s) st (scr_selectedTrain s)
        (scr_scheduleData s) (scr_coachData s) (scr_botInput s) (scr_chatMessages s)
        (scr_isBotTyping s)
  | SetSelectedTrain t =>
      Screen (scr_view s) (scr_isLoading s) (scr_trainResults s) (scr_liveStatus s) (Some t)
        (scr_scheduleData s) (scr_coachData s) (scr_botInput s) (scr_chatMessages s)
        (scr_isBotTyping s)
  | SetScheduleData data =>
      Screen (scr_view s) (scr_isLoading s) (scr_trainResults s) (scr_liveStatus s)
        (scr_selectedTrain s) data (scr_coachData s) (scr_botInput s) (scr_chatMessages s)
        (scr_isBotTyping s)
  | SetCoachData data =>
      Screen (scr_view s) (scr_isLoading s) (scr_trainResults s) (scr_liveStatus s)
        (scr_selectedTrain s) (scr_scheduleData s) data (scr_botInput s) (scr_chatMessages s)
        (scr_isBotTyping s)
  | SetBotInput text =>
      Screen (scr_view s) (scr_isLoading s) (scr_trainResults s) (scr_liveStatus s)
        (scr_selectedTrain s) (scr_scheduleData s) (scr_coachData s) text (scr_chatMessages s)
        (scr_isBotTyping s)
  | AppendChat r text =>
      Screen (scr_view s) (scr_isLoading s) (scr_trainResults s) (scr_liveStatus s)
        (scr_selectedTrain s) (scr_scheduleData s) (scr_coachData s) (scr_botInput s)
        (scr_chatMessages s ++ [(r, text)]) (scr_isBotTyping s)
  | ReplaceLastBot text =>
      Screen (scr_view s) (scr_isLoading s) (scr_trainResults s) (scr_liveStatus s)
        (scr_selectedTrain s) (scr_scheduleData s) (scr_coachData s) (scr_botInput s)
        (replace_last_bot text (scr_chatMessages s)) (scr_isBotTyping s)
  | SetIsBotTyping b =>
      Screen (scr_view s) (scr_isLoading s) (scr_trainResults s) (scr_liveStatus s)
        (scr_selectedTrain s) (scr_scheduleData s) (scr_coachData s) (scr_botInput s)
        (scr_chatMessages s) b
  end.

(** The state after the updates of one invocation, in order. *)
Fixpoint screen_after (l : list happening) (s : screen) : screen :=
  match l with
  | [] => s
  | Updated u :: rest => screen_after rest (apply_update u s)
  | _ :: rest => screen_after rest s
  end.

Definition is_raised (h : happening) : bool :=
  match h with Raised _ => true | _ => false end.

(** The timer callbacks of the two suggestion effects: the new list of
    suggestions, the cache, and what was done to it. *)
Definition fromSuggestionsTimer `{Json} (searchFrom : string) (showFromSuggestions : bool)
    (world : request -> outcome) (fromSuggestions : value) : M value :=
  if (2 <=? String.length searchFrom)%nat && showFromSuggestions
  then alone (StationSuggestions searchFrom) (world (suggestions_request searchFrom))
  else mret fromSuggestions.

Definition toSuggestionsTimer `{Json} (searchTo : string) (showToSuggestions : bool)
    (world : request -> outcome) (toSuggestions : value) : M value :=
  if (2 <=? String.length searchTo)%nat && showToSuggestions
  then alone (StationSuggestions searchTo) (world (suggestions_request searchTo))
  else mret toSuggestions.

(** The alerts effect.  What the host supplies: [JSON.stringify], whether
    [localStorage.setItem] takes a write or throws, and [v > 0] for a [v]
    that is a string, an array or an object. *)
Class Host : Type := {
  JSON_stringify : value -> string;
  storage_accepts : gmap string string -> string -> string -> bool;
  coerced_gt_zero : value -> bool
}.

(** [v > 0] *)
Definition gt_zero `{Host} (v : value) : bool :=
  match v with
  | VUndefined | VNull => false
  | VBool b => b
  | VNumber n => PrimFloat.ltb 0 n
  | VString _ | VArray _ | VObject _ => coerced_gt_zero v
  end.

Fixpoint property (name : string) (props : list (string * value)) : value :=
  match props with
  | [] => VUndefined
  | (key, v) :: rest => if String.eqb key name then v else property name rest
  end.

(** [data.length > 0] for a truthy [data] *)
Definition length_positive `{Host} (data : value) : bool :=
  match data with
  | VArray items => match items with [] => false | _ :: _ => true end
  | VString s => string_truthy s
  | VObject props => gt_zero (property "length" props)
  | VUndefined | VNull | VBool _ | VNumber _ => false
  end.

Record signals : Type := Signals {
  sig_alerts : value;
  sig_isLoading : bool;
  sig_storage : gmap string string;
  sig_console : list string
}.

(** The [then] callback; it throws what [setItem] throws, with the state as
    far as it got. *)
Definition alerts_then `{Host} (data : value) (g : signals) : completion unit * signals :=
  if truthy data && length_positive data then
    let text := JSON_stringify data in
    if storage_accepts (sig_storage g) "voyager_alerts_cache" text
    then (Normal tt,
          Signals data false (<["voyager_alerts_cache" := text]> (sig_storage g))
            (sig_console g))
    else (Throw "QuotaExceededError",
          Signals data (sig_isLoading g) (sig_storage g) (sig_console g))
  else (Normal tt, Signals (sig_alerts g) false (sig_storage g) (sig_console g)).

(** The [catch] callback. *)
Definition alerts_catch (err : string) (g : signals) : signals :=
  Signals (sig_alerts g) false (sig_storage g)
    (sig_console g ++ ["Failed to fetch live alerts: " ++ err]).

(** The effect on [view], run to its end. *)
Definition alerts_effect `{Json} `{Host} (v : AppView) (world : request -> outcome)
    (c : cache) (g : signals) : signals :=
  match v with
  | alerts =>
      let g1 := Signals (sig_alerts g) true (sig_storage g) (sig_console g) in
      match result (alone RecentAlerts (world alerts_request) c) with
      | Normal data =>
          match alerts_then data g1 with
          | (Normal _, g2) => g2
          | (Throw err, g2) => alerts_catch err g2
          end
      | Throw err => alerts_catch err g1
      end
  | _ => g
  end.

(** The shape of the keys of a map: lowercase and at least two long in
    [suggestions], lowercase with a hyphen in [search]. *)
Definition normal_key (m : cache_name) (k : string) : Prop :=
  match m with
  | Suggestions => toLowerCase k = k /\ (2 <= String.length k)%nat
  | Search => toLowerCase k = k /\ contains_hyphen k = true
  | Status | Schedules | Coaches => True
  end.

(** The state of the component when it mounts. *)
Definition initial_screen : screen :=
  Screen home false (VArray []) VNull None VNull VNull EmptyString
    [(bot, "Welcome to your premium travel suite. I am your Rail Concierge. How may I assist your voyage today?")]
    false.

(** A host to run the alerts effect with: a store that takes every write,
    and a serializer for [null], booleans, strings without quotes or escapes
    and arrays of these.  Its answers for other values, and for [v > 0] on
    strings, arrays and objects, are placeholders that the runs below never
    reach.  The theorems hold for every host; this one instantiates them. *)
Fixpoint stringify_fragment (v : value) : string :=
  match v with
  | VBool true => "true"
  | VBool false => "false"
  | VString s => quoted s
  | VArray items =>
      "[" ++ (fix commas (l : list value) : string :=
                match l with
                | [] => EmptyString
                | [x] => stringify_fragment x
                | x :: rest => stringify_fragment x ++ "," ++ commas rest
                end) items ++ "]"
  | _ => "null"
  end.

Definition test_host : Host :=
  {| JSON_stringify := stringify_fragment;
     storage_accepts := fun _ _ _ => true;
     coerced_gt_zero := fun _ => false |}.

(** The initial alerts, in a browser: the stored copy parsed, or an empty
    array when there is none; a stored text that does not parse throws. *)
Definition initial_alerts `{Json} (storage : gmap string string) : completion value :=
  match storage !! "voyager_alerts_cache" with
  | Some cached =>
      if string_truthy cached then
        match JSON_parse_text cached with
        | Some v => Normal v
        | None => Throw "SyntaxError"
        end
      else Normal (VArray [])
  | None => Normal (VArray [])
  end.

Definition is_issued (h : happening) : bool :=
  match h with Issued _ => true | _ => false end.

(** ** How one call runs *)

Section Adapters.
Context `{Json}.

Lemma select_modify_same m f s : select m (modify m f s) = f (select m s).
Proof. by destruct m. Qed.

Lemma select_modify_other m m' f s : m <> m' -> select m' (modify m f s) = select m' s.
Proof. by destruct m, m'. Qed.

Lemma has_true (g : gmap string value) k v :
  g !! k = Some v -> bool_decide (is_Some (g !! k)) = true.
Proof. intros ->. by apply bool_decide_eq_true. Qed.

Lemma has_false (g : gmap string value) k :
  g !! k = None -> bool_decide (is_Some (g !! k)) = false.
Proof. intros ->. apply bool_decide_eq_false. by intros [? ?]. Qed.

Ltac run_monad :=
  unfold mbind, mret, M_bind, M_ret, bind, try_catch, resolve, ret, throw, generateContent,
    Map_has, Map_get, Map_set, JSON_parse, await; simpl.

(** A hit: two operations on the map, the stored value handed back, nothing
    written. *)
Lemma invoke_hit c m k v s :
  entry c = Some (m, k) -> select m s !! k = Some v ->
  invoke c s = Run (Normal (Resolved (reread c v))) s [MapHas m k; MapGet m k].
Proof.
  intros He Hk.
  destruct c; simpl in He; try discriminate;
    [ unfold invoke, getStationSuggestionsAI;
      destruct (negb (string_truthy query) || (String.length query <? 2)%nat); [discriminate|]
    | unfold invoke, getCoachPositionAI
    | unfold invoke, getTrainScheduleAI
    | unfold invoke, searchTrainsAI
    | unfold invoke, getLiveStatusAI ];
    injection He as <- <-; simpl in Hk; run_monad;
    rewrite (has_true _ _ _ Hk); simpl; by rewrite Hk.
Qed.

(** A miss: one operation on the map, one request, nothing written; the
    rest of the call is [after]. *)
Lemma invoke_miss c m k s :
  entry c = Some (m, k) -> select m s !! k = None ->
  exists req resume,
    invoke c s = Run (Normal (Awaiting req resume)) s [MapHas m k; Generate req]
    /\ forall settled s', resume settled s' = after c settled s'.
Proof.
  intros He Hk.
  destruct c; simpl in He; try discriminate;
    [ unfold invoke, getStationSuggestionsAI, after; simpl entry;
      destruct (negb (string_truthy query) || (String.length query <? 2)%nat); [discriminate|]
    | unfold invoke, getCoachPositionAI, after; simpl entry
    | unfold invoke, getTrainScheduleAI, after; simpl entry
    | unfold invoke, searchTrainsAI, after; simpl entry
    | unfold invoke, getLiveStatusAI, after; simpl entry ];
    injection He as <- <-; simpl in Hk; run_monad;
    rewrite (has_false _ _ Hk); simpl;
    (eexists _, _; split; [reflexivity|]);
    (intros [e|text] s'; simpl; [reflexivity|]);
    destruct (JSON_parse_text _); reflexivity.
Qed.

(** [getRecentAlertsAI] never looks at the cache. *)
Lemma invoke_alerts s :
  exists resume,
    invoke RecentAlerts s = Run (Normal (Awaiting alerts_request resume)) s [Generate alerts_request]
    /\ forall settled s', resume settled s' = after RecentAlerts settled s'.
Proof.
  unfold invoke, getRecentAlertsAI, after. run_monad.
  eexists; split; [reflexivity|].
  intros [e|text] s'; simpl; [reflexivity|].
  destruct (JSON_parse_text _); reflexivity.
Qed.

(** [getStationSuggestionsAI] on a query it does not look up. *)
Lemma invoke_short query s :
  entry (StationSuggestions query) = None ->
  invoke (StationSuggestions query) s = Run (Normal (Resolved (VArray []))) s [].
Proof.
  unfold entry, invoke, getStationSuggestionsAI.
  destruct (negb (string_truthy query) || (String.length query <? 2)%nat); [|discriminate].
  reflexivity.
Qed.

(** The rest of a call whose request failed: the fallback, and the cache
    as it was. *)
Lemma after_fails c settled s :
  fails c settled = true ->
  result (after c settled s) = Normal (fallback c)
  /\ final (after c settled s) = s
  /\ forallb (fun o => negb (is_write o)) (trace (after c settled s)) = true.
Proof.
  unfold fails, after. destruct settled as [e|text]; simpl; [done|].
  destruct (JSON_parse_text _); [discriminate|done].
Qed.

(** The rest of a call whose request succeeded: the parsed value, stored
    under the entry of the call if it has one. *)
Lemma after_succeeds c settled s :
  fails c settled = false ->
  exists v,
    result (after c settled s) = Normal v
    /\ final (after c settled s)
       = match entry c with Some (m, k) => modify m (insert k v) s | None => s end
    /\ forallb (fun o => negb (is_generate o)) (trace (after c settled s)) = true.
Proof.
  unfold fails, after. destruct settled as [e|text]; simpl; [discriminate|].
  destruct (JSON_parse_text _) as [v|]; [|discriminate].
  intros _. exists v. by destruct (entry c) as [[m k]|].
Qed.

(** The rest of a call leaves every entry but its own as it was. *)
Lemma after_other c settled s m k :
  entry c <> Some (m, k) ->
  select m (final (after c settled s)) !! k = select m s !! k.
Proof.
  intros Hne. unfold after. destruct settled as [e|text]; simpl; [done|].
  destruct (JSON_parse_text _) as [v|]; [|done].
  destruct (entry c) as [[m' k']|]; [|done]. simpl.
  destruct (decide (m' = m)) as [->|Hm].
  - rewrite select_modify_same. apply lookup_insert_ne. congruence.
  - by rewrite select_modify_other.
Qed.

(** The rest of a call removes nothing. *)
Lemma after_keeps c settled s m k :
  is_Some (select m s !! k) -> is_Some (select m (final (after c settled s)) !! k).
Proof.
  intros Hs. unfold after. destruct settled as [e|text]; simpl; [done|].
  destruct (JSON_parse_text _) as [v|]; [|done].
  destruct (entry c) as [[m' k']|]; [|done]. simpl.
  destruct (decide (m' = m)) as [->|Hm].
  - rewrite select_modify_same. destruct (decide (k' = k)) as [->|Hk].
    + rewrite lookup_insert_eq. by eexists.
    + by rewrite lookup_insert_ne.
  - by rewrite select_modify_other.
Qed.

Lemma alone_hit c m k v settled s :
  entry c = Some (m, k) -> select m s !! k = Some v ->
  alone c settled s = Run (Normal (reread c v)) s [MapHas m k; MapGet m k].
Proof.
  intros He Hk. unfold alone. run_monad. by rewrite (invoke_hit c m k v s He Hk).
Qed.

Lemma alone_miss c m k settled s :
  entry c = Some (m, k) -> select m s !! k = None ->
  exists req,
    alone c settled s
    = Run (result (after c settled s)) (final (after c settled s))
        (MapHas m k :: Generate req :: trace (after c settled s)).
Proof.
  intros He Hk. destruct (invoke_miss c m k s He Hk) as (req & resume & Hi & Hr).
  exists req. unfold alone. run_monad. rewrite Hi. simpl. by rewrite Hr.
Qed.

Lemma reread_idem c v : reread c (reread c v) = reread c v.
Proof.
  destruct c; simpl; try done. unfold js_or.
  destruct (truthy v) eqn:Hv; [by rewrite Hv|done].
Qed.

(** A call that waits has left the cache alone, has sent its request, found
    no entry of its own, and goes on as [after]. *)
Lemma awaited c s req resume :
  result (invoke c s) = Normal (Awaiting req resume) ->
  final (invoke c s) = s
  /\ (forall settled s', resume settled s' = after c settled s')
  /\ In (Generate req) (trace (invoke c s))
  /\ (forall m k, entry c = Some (m, k) -> select m s !! k = None).
Proof.
  intros Hw. destruct (entry c) as [[m k]|] eqn:He.
  - destruct (select m s !! k) as [v|] eqn:Hk.
    + rewrite (invoke_hit c m k v s He Hk) in Hw. discriminate.
    + destruct (invoke_miss c m k s He Hk) as (req' & resume' & Hi & Hr).
      rewrite Hi in Hw |- *. simpl in Hw. injection Hw as -> ->.
      repeat split; [done|by right; left|]. intros ? ? [= <- <-]. done.
  - destruct c; try discriminate.
    + rewrite (invoke_short query s He) in Hw. discriminate.
    + destruct (invoke_alerts s) as (resume' & Hi & Hr).
      rewrite Hi in Hw |- *. simpl in Hw. injection Hw as <- ->.
      repeat split; [done|by left|discriminate].
Qed.

(** A call that resolves at once has sent no request and parsed nothing. *)
Lemma resolved_quietly c s v :
  result (invoke c s) = Normal (Resolved v) ->
  final (invoke c s) = s
  /\ forallb (fun o => negb (is_generate o) && negb (is_parse o) && negb (is_write o))
       (trace (invoke c s)) = true.
Proof.
  intros Hw. destruct (entry c) as [[m k]|] eqn:He.
  - destruct (select m s !! k) as [v'|] eqn:Hk.
    + by rewrite (invoke_hit c m k v' s He Hk).
    + destruct (invoke_miss c m k s He Hk) as (req' & resume' & Hi & Hr).
      rewrite Hi in Hw. discriminate.
  - destruct c; try discriminate. by rewrite (invoke_short query s He).
Qed.

(** No adapter throws before its [await]. *)
Lemma invoke_normal c s : exists p, result (invoke c s) = Normal p.
Proof.
  destruct (entry c) as [[m k]|] eqn:He.
  - destruct (select m s !! k) as [v'|] eqn:Hk.
    + rewrite (invoke_hit c m k v' s He Hk). by eexists.
    + destruct (invoke_miss c m k s He Hk) as (req' & resume' & Hi & Hr).
      rewrite Hi. by eexists.
  - destruct c; try discriminate.
    + rewrite (invoke_short query s He). by eexists.
    + destruct (invoke_alerts s) as (resume' & Hi & Hr). rewrite Hi. by eexists.
Qed.


(** ** What the adapters guarantee *)




(** C9. A query that is empty or shorter than two characters gets an empty
    array at once: no request, no parse, no operation on the cache. *)
Theorem short_query_returns_at_once query s :
  query = EmptyString \/ (String.length query < 2)%nat ->
  getStationSuggestionsAI query s = Run (Normal (Resolved (VArray []))) s [].
Proof.
  intros Hq. unfold getStationSuggestionsAI.
  destruct query as [|a [|b rest]]; try reflexivity.
  destruct Hq as [Hq|Hq]; [discriminate|simpl in Hq; lia].
Qed.

Lemma alone_awaiting c s req resume settled :
  result (invoke c s) = Normal (Awaiting req resume) ->
  alone c settled s
  = Run (result (after c settled s)) (final (after c settled s))
      (trace (invoke c s) ++ trace (after c settled s)).
Proof.
  intros Hw. destruct (awaited c s req resume Hw) as (Hs & Hr & _).
  unfold alone. run_monad. rewrite Hw, Hs, Hr. done.
Qed.

(** After a call that nothing overlaps and whose request did not fail (or
    that found its entry), the entry holds a value, and the call returned
    it, up to what a hit makes of it. *)
Lemma alone_then_cached c m k settled s :
  entry c = Some (m, k) ->
  is_Some (select m s !! k) \/ fails c settled = false ->
  exists v r,
    select m (final (alone c settled s)) !! k = Some v
    /\ result (alone c settled s) = Normal r
    /\ reread c r = reread c v
    /\ ((forall q, c <> StationSuggestions q) -> r = v).
Proof.
  intros He Hok. destruct (select m s !! k) as [v|] eqn:Hk.
  - rewrite (alone_hit c m k v settled s He Hk). simpl.
    exists v, (reread c v). repeat split; [done|apply reread_idem|].
    intros Hc. destruct c; try done. by destruct (Hc query).
  - destruct Hok as [[? ?]|Hok]; [discriminate|].
    destruct (alone_miss c m k settled s He Hk) as (req & ->). simpl.
    destruct (after_succeeds c settled s Hok) as (v & -> & -> & _).
    rewrite He, select_modify_same, lookup_insert_eq. by exists v, v.
Qed.

(** C4, amended.  When the cache holds the key of the call, each of the
    five cached adapters looks the key up, returns the stored value, and
    does nothing else: no request, no parse, no write.
    [getStationSuggestionsAI] returns [stored || []], which is the stored
    value unless that is falsy.  When an adapter does send a request, the
    look-up came first and found nothing. *)
Theorem hit_returns_stored_value :
  (forall from to s stored,
      search s !! (toLowerCase from ++ "-" ++ toLowerCase to) = Some stored ->
      searchTrainsAI from to s
      = Run (Normal (Resolved stored)) s
          [MapHas Search (toLowerCase from ++ "-" ++ toLowerCase to);
           MapGet Search (toLowerCase from ++ "-" ++ toLowerCase to)])
  /\ (forall trainNumber s stored,
      status s !! trainNumber = Some stored ->
      getLiveStatusAI trainNumber s
      = Run (Normal (Resolved stored)) s [MapHas Status trainNumber; MapGet Status trainNumber])
  /\ (forall query s stored,
      (2 <= String.length query)%nat ->
      suggestions s !! toLowerCase query = Some stored ->
      getStationSuggestionsAI query s
      = Run (Normal (Resolved (if truthy stored then stored else VArray []))) s
          [MapHas Suggestions (toLowerCase query); MapGet Suggestions (toLowerCase query)])
  /\ (forall trainNumber s stored,
      schedules s !! trainNumber = Some stored ->
      getTrainScheduleAI trainNumber s
      = Run (Normal (Resolved stored)) s
          [MapHas Schedules trainNumber; MapGet Schedules trainNumber])
  /\ (forall trainNumber s stored,
      coaches s !! trainNumber = Some stored ->
      getCoachPositionAI trainNumber s
      = Run (Normal (Resolved stored)) s [MapHas Coaches trainNumber; MapGet Coaches trainNumber])
  /\ (forall c s req,
      c <> RecentAlerts ->
      In (Generate req) (trace (invoke c s)) ->
      exists m k,
        trace (invoke c s) = [MapHas m k; Generate req] /\ select m s !! k = None).
Proof.
  repeat split.
  - intros from to s stored Hk. by apply (invoke_hit (SearchTrains from to) Search).
  - intros n s stored Hk. by apply (invoke_hit (LiveStatus n) Status).
  - intros query s stored Hq Hk.
    apply (invoke_hit (StationSuggestions query) Suggestions); [|done].
    simpl. destruct query as [|a [|b rest]]; simpl in Hq; try lia. done.
  - intros n s stored Hk. by apply (invoke_hit (TrainSchedule n) Schedules).
  - intros n s stored Hk. by apply (invoke_hit (CoachPosition n) Coaches).
  - intros c s req Hc Hin. destruct (entry c) as [[m k]|] eqn:He.
    + exists m, k. destruct (select m s !! k) as [v|] eqn:Hk.
      * rewrite (invoke_hit c m k v s He Hk) in Hin. simpl in Hin.
        destruct Hin as [|[|[]]]; discriminate.
      * destruct (invoke_miss c m k s He Hk) as (req' & resume' & Hi & _).
        rewrite Hi in Hin |- *. simpl in Hin |- *.
        destruct Hin as [|[Hin|[]]]; [discriminate|]. by injection Hin as ->.
    + destruct c; try discriminate; [|done].
      rewrite (invoke_short query s He) in Hin. destruct Hin.
Qed.



Lemma lower_char_idem a : lower_char (lower_char a) = lower_char a.
Proof. by destruct a as [[] [] [] [] [] [] [] []]. Qed.






Lemma entry_suggestions query :
  (2 <= String.length query)%nat ->
  entry (StationSuggestions query) = Some (Suggestions, toLowerCase query).
Proof. destruct query as [|a [|b rest]]; simpl; try lia. done. Qed.


(** C10. [searchTrainsAI] looks up the lowercased [from], a hyphen and the
    lowercased [to]: for from NDLS to Bct the key is ndls-bct.  Two
    different pairs that give the same key share the entry: after a call for
    from a-b to c has filled it, a call for from a to b-c returns what the
    first call stored, and sends no request; so do the pairs from A-B to c
    and from a to b-C, which differ in case as well. *)
Theorem search_key_collides :
  (forall from to s,
      exists rest,
        trace (searchTrainsAI from to s)
        = MapHas Search (toLowerCase from ++ "-" ++ toLowerCase to) :: rest)
  /\ ("a-b", "c") <> ("a", "b-c")
  /\ (forall s settled,
      fails (SearchTrains "a-b" "c") settled = false ->
      let s1 := final (alone (SearchTrains "a-b" "c") settled s) in
      exists stored,
        result (alone (SearchTrains "a-b" "c") settled s) = Normal stored
        /\ search s1 !! "a-b-c" = Some stored
        /\ searchTrainsAI "a" "b-c" s1
           = Run (Normal (Resolved stored)) s1 [MapHas Search "a-b-c"; MapGet Search "a-b-c"])
  /\ (forall s,
      exists rest, trace (searchTrainsAI "NDLS" "Bct" s) = MapHas Search "ndls-bct" :: rest)
  /\ ("A-B", "c") <> ("a", "b-C")
  /\ (forall s settled,
      fails (SearchTrains "A-B" "c") settled = false ->
      let s1 := final (alone (SearchTrains "A-B" "c") settled s) in
      exists stored,
        result (alone (SearchTrains "A-B" "c") settled s) = Normal stored
        /\ search s1 !! "a-b-c" = Some stored
        /\ searchTrainsAI "a" "b-C" s1
           = Run (Normal (Resolved stored)) s1 [MapHas Search "a-b-c"; MapGet Search "a-b-c"]).
Proof.
  split; [|split; [|split; [|split; [|split]]]].
  - intros from to s. unfold searchTrainsAI. run_monad.
    destruct (bool_decide _); simpl; by eexists.
  - discriminate.
  - intros s settled Hok s1.
    assert (entry (SearchTrains "a-b" "c") = Some (Search, "a-b-c")) as He1 by done.
    destruct (alone_then_cached _ _ _ settled s He1 (or_intror Hok)) as (v & r & Hk & Hr & _ & Hrv).
    exists v. rewrite (Hrv ltac:(done)) in Hr. repeat split; [done|done|].
    by apply (invoke_hit (SearchTrains "a" "b-c") Search).
  - intros s. unfold searchTrainsAI. run_monad.
    destruct (bool_decide _); simpl; by eexists.
  - discriminate.
  - intros s settled Hok s1.
    assert (entry (SearchTrains "A-B" "c") = Some (Search, "a-b-c")) as He1 by done.
    destruct (alone_then_cached _ _ _ settled s He1 (or_intror Hok)) as (v & r & Hk & Hr & _ & Hrv).
    exists v. rewrite (Hrv ltac:(done)) in Hr. repeat split; [done|done|].
    by apply (invoke_hit (SearchTrains "a" "b-C") Search).
Qed.

(** ** Calls that overlap *)

Lemma step_faithful sys e :
  Forall faithful (inflight sys) -> Forall faithful (inflight (step sys e)).
Proof.
  intros Hs. destruct e as [c|i settled]; simpl.
  - destruct (result (invoke c (store sys))) as [[v|req resume]|error] eqn:Hr; simpl; try done.
    apply Forall_app. split; [done|]. apply Forall_singleton.
    by destruct (awaited c _ req resume Hr) as (_ & Ha & _).
  - destruct (inflight sys !! i) as [t|] eqn:Ht; simpl; [|done].
    by apply Forall_delete.
Qed.

Lemma steps_faithful sys events :
  Forall faithful (inflight sys) -> Forall faithful (inflight (steps sys events)).
Proof.
  revert sys. induction events as [|e events IH]; intros sys Hs; simpl; [done|].
  apply IH. by apply step_faithful.
Qed.

Lemma boot_faithful history : Forall faithful (inflight (steps boot history)).
Proof. apply steps_faithful. constructor. Qed.

(** No step removes an entry. *)
Lemma step_keeps sys e m k :
  Forall faithful (inflight sys) ->
  is_Some (select m (store sys) !! k) ->
  is_Some (select m (store (step sys e)) !! k).
Proof.
  intros Hs Hk. destruct e as [c|i settled]; simpl.
  - destruct (result (invoke c (store sys))) as [[v|req resume]|error] eqn:Hr; simpl.
    + by destruct (resolved_quietly c _ v Hr) as [-> _].
    + by destruct (awaited c _ req resume Hr) as (-> & _).
    + destruct (invoke_normal c (store sys)) as [p Hp]. congruence.
  - destruct (inflight sys !! i) as [t|] eqn:Ht; simpl; [|done].
    rewrite (Forall_lookup_1 _ _ _ _ Hs Ht). by apply after_keeps.
Qed.

Lemma steps_keeps sys events m k :
  Forall faithful (inflight sys) ->
  is_Some (select m (store sys) !! k) ->
  is_Some (select m (store (steps sys events)) !! k).
Proof.
  revert sys. induction events as [|e events IH]; intros sys Hs Hk; simpl; [done|].
  apply IH; [by apply step_faithful|by apply step_keeps].
Qed.

(** With no waiting call for an entry, a step leaves the entry as it is and
    adds no waiting call for it. *)
Lemma step_settled sys e m k stored :
  Forall faithful (inflight sys) ->
  select m (store sys) !! k = Some stored ->
  Forall (fun t => entry (task_call t) <> Some (m, k)) (inflight sys) ->
  select m (store (step sys e)) !! k = Some stored
  /\ Forall (fun t => entry (task_call t) <> Some (m, k)) (inflight (step sys e)).
Proof.
  intros Hs Hk Hn. destruct e as [c|i settled]; simpl.
  - destruct (result (invoke c (store sys))) as [[v|req resume]|error] eqn:Hr; simpl.
    + by destruct (resolved_quietly c _ v Hr) as [-> _].
    + destruct (awaited c _ req resume Hr) as (-> & _ & _ & Hmiss).
      split; [done|]. apply Forall_app. split; [done|]. apply Forall_singleton. simpl.
      intros He. specialize (Hmiss m k He). congruence.
    + destruct (invoke_normal c (store sys)) as [p Hp]. congruence.
  - destruct (inflight sys !! i) as [t|] eqn:Ht; simpl; [|done].
    rewrite (Forall_lookup_1 _ _ _ _ Hs Ht). split; [|by apply Forall_delete].
    rewrite after_other; [done|]. apply (Forall_lookup_1 _ _ _ _ Hn Ht).
Qed.

Lemma steps_settled sys events m k stored :
  Forall faithful (inflight sys) ->
  select m (store sys) !! k = Some stored ->
  Forall (fun t => entry (task_call t) <> Some (m, k)) (inflight sys) ->
  select m (store (steps sys events)) !! k = Some stored.
Proof.
  revert sys. induction events as [|e events IH]; intros sys Hs Hk Hn; simpl; [done|].
  destruct (step_settled sys e m k stored Hs Hk Hn) as [Hk' Hn'].
  apply IH; [by apply step_faithful|done|done].
Qed.

(** C5, amended.  No call removes an entry.  Once an entry holds a value
    and no call for that entry is waiting for its response, the entry keeps
    that value through every later start and settlement, and every later
    call for the entry returns it and writes nothing;
    [getStationSuggestionsAI] returns [stored || []].  (A call for the same
    entry that was already waiting when the entry was written is outside
    this: it writes the entry again when its response comes.) *)
Theorem entry_persists_without_overlap :
  (forall history later m k,
      is_Some (select m (store (steps boot history)) !! k) ->
      is_Some (select m (store (steps (steps boot history) later)) !! k))
  /\ (forall history later m k stored,
      select m (store (steps boot history)) !! k = Some stored ->
      Forall (fun t => entry (task_call t) <> Some (m, k)) (inflight (steps boot history)) ->
      select m (store (steps (steps boot history) later)) !! k = Some stored
      /\ forall c,
          entry c = Some (m, k) ->
          invoke c (store (steps (steps boot history) later))
          = Run (Normal (Resolved match c with
                                  | StationSuggestions _ =>
                                      if truthy stored then stored else VArray []
                                  | _ => stored
                                  end))
              (store (steps (steps boot history) later))
              [MapHas m k; MapGet m k]).
Proof.
  split.
  - intros history later m k Hk. apply steps_keeps; [apply boot_faithful|done].
  - intros history later m k stored Hk Hn.
    assert (select m (store (steps (steps boot history) later)) !! k = Some stored) as Hk'.
    { apply steps_settled; [apply boot_faithful|done|done]. }
    split; [done|]. intros c He.
    rewrite (invoke_hit c m k stored _ He Hk'). by destruct c.
Qed.

(** When the request of a waiting call is answered with text that parses
    and no other call for the entry is waiting, the call returns the parsed
    value and the entry holds it through everything that follows. *)
Lemma settled_then_cached history j c m k settled later :
  task_call <$> inflight (steps boot history) !! j = Some c ->
  entry c = Some (m, k) ->
  fails c settled = false ->
  Forall (fun t => entry (task_call t) <> Some (m, k))
    (delete j (inflight (steps boot history))) ->
  exists v,
    result (after c settled (store (steps boot history))) = Normal v
    /\ finished (step (steps boot history) (Settle j settled))
       = (finished (steps boot history) ++ [(c, Normal v)])%list
    /\ select m (store (steps (step (steps boot history) (Settle j settled)) later)) !! k
       = Some v.
Proof.
  intros Hj He Hok Hn.
  destruct (inflight (steps boot history) !! j) as [t|] eqn:Ht; [|discriminate].
  simpl in Hj. injection Hj as <-.
  pose proof (boot_faithful history) as Hf.
  pose proof (Forall_lookup_1 _ _ _ _ Hf Ht) as Hr.
  destruct (after_succeeds (task_call t) settled (store (steps boot history)) Hok)
    as (v & Hres & Hfin & _).
  exists v. split; [done|].
  assert (step (steps boot history) (Settle j settled)
          = System (final (after (task_call t) settled (store (steps boot history))))
              (delete j (inflight (steps boot history)))
              (finished (steps boot history) ++ [(task_call t, Normal v)])) as Hs.
  { simpl. rewrite Ht. simpl. by rewrite Hr, Hres. }
  rewrite Hs. split; [done|].
  apply steps_settled; simpl.
  - by apply Forall_delete.
  - by rewrite Hfin, He, select_modify_same, lookup_insert_eq.
  - done.
Qed.

(** C3, amended.  For the five cached adapters: once the request of a call
    has been answered with text that parses, and no other call for the same
    entry is waiting at that moment, the same call made again at any later
    time sends no request and returns what the first call returned;
    [getStationSuggestionsAI] returns an empty array where the first call
    returned a falsy value.  The same holds after a call that found its
    entry in the cache.  [getRecentAlertsAI] and the assistant stream keep
    nothing: every call sends a request. *)
Theorem repeated_query_hits_cache :
  (forall history j c m k settled later settled',
      task_call <$> inflight (steps boot history) !! j = Some c ->
      entry c = Some (m, k) ->
      fails c settled = false ->
      Forall (fun t => entry (task_call t) <> Some (m, k))
        (delete j (inflight (steps boot history))) ->
      exists r,
        finished (step (steps boot history) (Settle j settled))
        = (finished (steps boot history) ++ [(c, Normal r)])%list
        /\ alone c settled'
             (store (steps (step (steps boot history) (Settle j settled)) later))
           = Run (Normal match c with
                         | StationSuggestions _ => if truthy r then r else VArray []
                         | _ => r
                         end)
               (store (steps (step (steps boot history) (Settle j settled)) later))
               [MapHas m k; MapGet m k])
  /\ (forall history c m k stored later settled',
      entry c = Some (m, k) ->
      select m (store (steps boot history)) !! k = Some stored ->
      Forall (fun t => entry (task_call t) <> Some (m, k)) (inflight (steps boot history)) ->
      exists r,
        finished (step (steps boot history) (Start c))
        = (finished (steps boot history) ++ [(c, Normal r)])%list
        /\ alone c settled' (store (steps (step (steps boot history) (Start c)) later))
           = Run (Normal r) (store (steps (step (steps boot history) (Start c)) later))
               [MapHas m k; MapGet m k])
  /\ (forall s, In (Generate alerts_request) (trace (getRecentAlertsAI s)))
  /\ (forall query settled,
      issued (getRailAssistantResponseStream query settled) = assistant_request query).
Proof.
  split; [|split; [|split]].
  - intros history j c m k settled later settled' Hj He Hok Hn.
    destruct (settled_then_cached history j c m k settled later Hj He Hok Hn)
      as (v & _ & Hfin & Hk).
    exists v. split; [done|].
    rewrite (alone_hit c m k v settled' _ He Hk). by destruct c.
  - intros history c m k stored later settled' He Hk Hn.
    exists (reread c stored).
    assert (step (steps boot history) (Start c)
            = System (store (steps boot history)) (inflight (steps boot history))
                (finished (steps boot history) ++ [(c, Normal (reread c stored))])) as Hs.
    { simpl. by rewrite (invoke_hit c m k stored _ He Hk). }
    rewrite Hs. split; [done|].
    assert (select m (store (steps (System (store (steps boot history))
                                      (inflight (steps boot history))
                                      (finished (steps boot history)
                                       ++ [(c, Normal (reread c stored))])) later)) !! k
            = Some stored) as Hk'.
    { apply steps_settled; simpl; [apply boot_faithful|done|done]. }
    by rewrite (alone_hit c m k stored settled' _ He Hk').
  - intros s. by left.
  - intros query settled. unfold getRailAssistantResponseStream.
    by destruct (stream_body settled) as [[?|?] ?].
Qed.

(** ** The handlers *)

Lemma adapter_calls_updates (f : string -> update) texts rest :
  adapter_calls (map (fun text => Updated (f text)) texts ++ rest) = adapter_calls rest.
Proof. induction texts as [|t texts IH]; simpl; [done|]. apply IH. Qed.

Lemma adapter_calls_cons h rest :
  adapter_calls (h :: rest) = ((if is_adapter_call h then 1 else 0) + adapter_calls rest)%nat.
Proof. unfold adapter_calls. simpl. by destruct (is_adapter_call h). Qed.

Lemma peak_outstanding_updates (f : string -> update) texts rest n :
  peak_outstanding n (map (fun text => Updated (f text)) texts ++ rest)
  = peak_outstanding n rest.
Proof. induction texts as [|t texts IH]; simpl; [done|]. apply IH. Qed.

Lemma alone_one_request c settled s :
  (length (List.filter is_generate (trace (alone c settled s))) <= 1)%nat.
Proof.
  destruct (invoke_normal c s) as [[v|req resume] Hp].
  - destruct (resolved_quietly c s v Hp) as [_ Hq].
    unfold alone. run_monad. rewrite Hp. simpl. rewrite app_nil_r.
    induction (trace (invoke c s)) as [|o l IH]; simpl in *; [lia|].
    apply andb_true_iff in Hq as [Ho Hl]. destruct (is_generate o); [discriminate|]. auto.
  - rewrite (alone_awaiting c s req resume settled Hp).
    destruct (entry c) as [[m k]|] eqn:He.
    + destruct (awaited c s req resume Hp) as (_ & _ & _ & Hmiss).
      destruct (invoke_miss c m k s He (Hmiss m k He)) as (req' & resume' & -> & _).
      unfold after. simpl. destruct settled as [e|text]; simpl; [lia|].
      destruct (JSON_parse_text _); rewrite ?He; simpl; lia.
    + destruct c; try discriminate.
      * rewrite (invoke_short query s He) in Hp. discriminate.
      * unfold after. simpl. destruct settled as [e|text]; simpl; [lia|].
        destruct (JSON_parse_text _); simpl; lia.
Qed.

Ltac run_handler c :=
  cbn [perform];
  let p := fresh "p" in let s' := fresh "s" in let t := fresh "t" in
  destruct (invoke _ c) as [[[v|req resume]|error] s' t]; cbn;
  [ | destruct (resume _ _) as [[v|error] ? ?]; cbn | ]; lia.

(** C7. One invocation of a submit or send handler calls at most one
    adapter, and at no time has more than one request awaiting its answer;
    a call of an adapter sends at most one request. *)
Theorem handler_makes_at_most_one_call :
  (forall world stream_world st c,
      Forall (fun h =>
                (adapter_calls (perform world stream_world h c) <= 1)%nat
                /\ (peak_outstanding 0 (perform world stream_world h c) <= 1)%nat)
        [handleSearch st; handleLiveSearch st; handleScheduleSearch st;
         handleCoachSearch st; handleSendMessage st])
  /\ (forall c settled s,
      (length (List.filter is_generate (trace (alone c settled s))) <= 1)%nat).
Proof.
  split; [|apply alone_one_request].
  intros world stream_world st c.
  repeat first [apply Forall_nil_2 | apply Forall_cons_2].
  - unfold handleSearch.
    destruct (negb (string_truthy (searchFrom st)) || negb (string_truthy (searchTo st)));
      [cbn; lia|]. unfold adapter_calls. run_handler c.
  - unfold handleLiveSearch.
    destruct (negb (string_truthy (liveSearchInput st))); [cbn; lia|].
    unfold adapter_calls. run_handler c.
  - unfold handleScheduleSearch.
    destruct (negb (string_truthy (scheduleInput st))); [cbn; lia|].
    unfold adapter_calls. run_handler c.
  - unfold handleCoachSearch.
    destruct (negb (string_truthy (coachInput st))); [cbn; lia|].
    unfold adapter_calls. run_handler c.
  - unfold handleSendMessage.
    destruct (negb (string_truthy (trim (botInput st))) || isBotTyping st); [cbn; lia|].
    cbn [perform].
    destruct (getRailAssistantResponseStream _ _) as [req texts [v|error]];
      cbn [issued delivered returned]; (split;
        [ rewrite !adapter_calls_cons, adapter_calls_updates, !adapter_calls_cons; cbn; lia
        | cbn [peak_outstanding]; rewrite peak_outstanding_updates; cbn; lia ]).
Qed.

End Adapters.

(** ** Concrete runs *)

Example toLowerCase_stations : toLowerCase "New Delhi-NDLS" = "new delhi-ndls".
Proof. reflexivity. Qed.

Example toLowerCase_accented :
  toLowerCase (Eacute ++ "TAPLES") = eacute ++ "taples"
  /\ toLowerCase (eacute ++ "taples") = eacute ++ "taples"
  /\ toLowerCase times_sign = times_sign
  /\ case_variant (Eacute ++ "taples") (eacute ++ "TAPLES") = true
  /\ entry (SearchTrains Eacute "X") = Some (Search, eacute ++ "-x")
  /\ entry (SearchTrains eacute "x") = Some (Search, eacute ++ "-x").
Proof. repeat split; reflexivity. Qed.

Example trim_blank : trim "   " = EmptyString /\ trim "  PNR status " = "PNR status".
Proof. split; reflexivity. Qed.

Example json_fragment_values :
  json_fragment "null" = Some VNull
  /\ json_fragment " [1, -20 ,[true,false], 0] "
     = Some (VArray [VNumber 1; VNumber (-20); VArray [VBool true; VBool false]; VNumber 0])
  /\ json_fragment rajdhani_text = Some (VArray [VString "12951 Mumbai Rajdhani"]).
Proof. repeat split; reflexivity. Qed.

Example json_fragment_rejects :
  json_fragment "[1,]" = None /\ json_fragment "01" = None
  /\ json_fragment "nul" = None /\ json_fragment "null x" = None
  /\ json_fragment "Sorry, no data." = None.
Proof. repeat split; reflexivity. Qed.

Example falsy_values :
  truthy (VNumber 0) = false /\ truthy (VNumber (-0)) = false /\ truthy (VNumber nan) = false
  /\ truthy (VString EmptyString) = false /\ truthy (VArray []) = true.
Proof. repeat split; reflexivity. Qed.




(** C3 as stated fails: [getRecentAlertsAI] called twice sends two requests,
    and the second call returns the second response, not the first. *)
Lemma alerts_are_not_cached :
  let first := @alone json_fragment RecentAlerts (Fulfilled (Some fog_text)) empty_cache in
  let second := @alone json_fragment RecentAlerts (Fulfilled (Some platform_text)) (final first) in
  result first = Normal (VArray [VString "Fog: 12951 delayed by 40 min"])
  /\ result second = Normal (VArray [VString "12263 moved to platform 5"])
  /\ trace second = [Generate alerts_request; JsonParse platform_text]
  /\ result second <> result first.
Proof. repeat split; try reflexivity. discriminate. Qed.

Lemma repeated_query_hits_cache_witness :
  let c := SearchTrains "NDLS" "BCT" in
  let history := [Start (LiveStatus "12951"); Start c] in
  let later := [Start (SearchTrains "ndls" "bct"); Settle 0 (Rejected "503");
                Start RecentAlerts] in
  let sys := @steps json_fragment boot history in
  let sys' := @steps json_fragment
                (@step json_fragment sys (Settle 1 (Fulfilled (Some rajdhani_text)))) later in
  task_call <$> inflight sys !! 1%nat = Some c
  /\ @fails json_fragment c (Fulfilled (Some rajdhani_text)) = false
  /\ exists r,
      finished (@step json_fragment sys (Settle 1 (Fulfilled (Some rajdhani_text))))
      = (finished sys ++ [(c, Normal r)])%list
      /\ @alone json_fragment c (Rejected "503") (store sys')
         = Run (Normal r) (store sys') [MapHas Search "ndls-bct"; MapGet Search "ndls-bct"].
Proof.
  split; [reflexivity|]. split; [reflexivity|].
  apply (proj1 (@repeated_query_hits_cache json_fragment)
           [Start (LiveStatus "12951"); Start (SearchTrains "NDLS" "BCT")] 1%nat
           (SearchTrains "NDLS" "BCT") Search "ndls-bct" (Fulfilled (Some rajdhani_text))
           [Start (SearchTrains "ndls" "bct"); Settle 0 (Rejected "503"); Start RecentAlerts]
           (Rejected "503")).
  - reflexivity.
  - reflexivity.
  - reflexivity.
  - simpl. apply Forall_cons_2; [discriminate|apply Forall_nil_2].
Defined.

(** C4 as stated fails: when the model answered a suggestions request with
    [null], the entry holds [null], and the next call for the key returns an
    empty array, not the stored value. *)
Lemma falsy_suggestion_is_not_returned :
  let s := final (@alone json_fragment (StationSuggestions "de") (Fulfilled (Some "null"))
                    empty_cache) in
  suggestions s !! toLowerCase "de" = Some VNull
  /\ result (@getStationSuggestionsAI json_fragment "de" s) = Normal (Resolved (VArray []))
  /\ VArray [] <> VNull.
Proof. repeat split; try reflexivity. discriminate. Qed.

Lemma hit_returns_stored_value_witness :
  let s := final (@alone json_fragment (TrainSchedule "12951") (Fulfilled (Some rajdhani_text))
                    empty_cache) in
  schedules s !! "12951" = Some (VArray [VString "12951 Mumbai Rajdhani"])
  /\ @getTrainScheduleAI json_fragment "12951" s
     = Run (Normal (Resolved (VArray [VString "12951 Mumbai Rajdhani"]))) s
         [MapHas Schedules "12951"; MapGet Schedules "12951"].
Proof.
  split; [reflexivity|].
  apply (proj1 (proj2 (proj2 (proj2 (@hit_returns_stored_value json_fragment))))).
  reflexivity.
Defined.

(** C5 as stated fails.  Two calls of [searchTrainsAI] for one pair both
    miss before either response is in; the first response is stored, the
    second overwrites it, and a later call returns the second value.  And
    after [getStationSuggestionsAI] has stored [null], a later call for the
    key returns an empty array. *)
Lemma overlapping_calls_overwrite :
  let c := SearchTrains "NDLS" "BCT" in
  let sys1 := @steps json_fragment boot
                [Start c; Start c; Settle 0 (Fulfilled (Some rajdhani_text))] in
  let sys2 := @steps json_fragment sys1 [Settle 0 (Fulfilled (Some duronto_text))] in
  let sys3 := @steps json_fragment sys2 [Start c] in
  let q := StationSuggestions "de" in
  let sys4 := @steps json_fragment boot [Start q; Settle 0 (Fulfilled (Some "null")); Start q] in
  search (store sys1) !! "ndls-bct" = Some (VArray [VString "12951 Mumbai Rajdhani"])
  /\ search (store sys2) !! "ndls-bct" = Some (VArray [VString "12263 Pune Duronto"])
  /\ finished sys3
     = [(c, Normal (VArray [VString "12951 Mumbai Rajdhani"]));
        (c, Normal (VArray [VString "12263 Pune Duronto"]));
        (c, Normal (VArray [VString "12263 Pune Duronto"]))]
  /\ VArray [VString "12263 Pune Duronto"] <> VArray [VString "12951 Mumbai Rajdhani"]
  /\ suggestions (store sys4) !! "de" = Some VNull
  /\ finished sys4 = [(q, Normal VNull); (q, Normal (VArray []))].
Proof. repeat split; try reflexivity. discriminate. Qed.

Lemma entry_persists_without_overlap_witness :
  let history := [Start (LiveStatus "12951"); Start (SearchTrains "NDLS" "BCT");
                  Settle 1 (Fulfilled (Some rajdhani_text))] in
  let later := [Start (SearchTrains "ndls" "bct"); Start RecentAlerts;
                Settle 0 (Fulfilled (Some "null")); Start (SearchTrains "Ndls" "Bct");
                Settle 0 (Rejected "503")] in
  let sys := @steps json_fragment (@steps json_fragment boot history) later in
  select Search (store sys) !! "ndls-bct" = Some (VArray [VString "12951 Mumbai Rajdhani"])
  /\ forall c,
      entry c = Some (Search, "ndls-bct") ->
      @invoke json_fragment c (store sys)
      = Run (Normal (Resolved match c with
                              | StationSuggestions _ =>
                                  if truthy (VArray [VString "12951 Mumbai Rajdhani"])
                                  then VArray [VString "12951 Mumbai Rajdhani"]
                                  else VArray []
                              | _ => VArray [VString "12951 Mumbai Rajdhani"]
                              end))
          (store sys) [MapHas Search "ndls-bct"; MapGet Search "ndls-bct"].
Proof.
  apply (proj2 (@entry_persists_without_overlap json_fragment)
           [Start (LiveStatus "12951"); Start (SearchTrains "NDLS" "BCT");
            Settle 1 (Fulfilled (Some rajdhani_text))]).
  - reflexivity.
  - simpl. apply Forall_cons_2; [discriminate|apply Forall_nil_2].
Defined.




Lemma short_query_returns_at_once_witness :
  @getStationSuggestionsAI json_fragment "D" empty_cache
  = Run (Normal (Resolved (VArray []))) empty_cache [].
Proof. apply short_query_returns_at_once. right. simpl. lia. Defined.

Lemma search_key_collides_witness :
  let s1 := final (@alone json_fragment (SearchTrains "a-b" "c")
                     (Fulfilled (Some rajdhani_text)) empty_cache) in
  let s2 := final (@alone json_fragment (SearchTrains "A-B" "c")
                     (Fulfilled (Some duronto_text)) empty_cache) in
  @fails json_fragment (SearchTrains "a-b" "c") (Fulfilled (Some rajdhani_text)) = false
  /\ (exists stored,
        result (@alone json_fragment (SearchTrains "a-b" "c")
                  (Fulfilled (Some rajdhani_text)) empty_cache) = Normal stored
        /\ search s1 !! "a-b-c" = Some stored
        /\ @searchTrainsAI json_fragment "a" "b-c" s1
           = Run (Normal (Resolved stored)) s1 [MapHas Search "a-b-c"; MapGet Search "a-b-c"])
  /\ @fails json_fragment (SearchTrains "A-B" "c") (Fulfilled (Some duronto_text)) = false
  /\ (exists stored,
        result (@alone json_fragment (SearchTrains "A-B" "c")
                  (Fulfilled (Some duronto_text)) empty_cache) = Normal stored
        /\ search s2 !! "a-b-c" = Some stored
        /\ @searchTrainsAI json_fragment "a" "b-C" s2
           = Run (Normal (Resolved stored)) s2 [MapHas Search "a-b-c"; MapGet Search "a-b-c"]).
Proof.
  split; [reflexivity|]. split.
  - apply (proj1 (proj2 (proj2 (@search_key_collides json_fragment)))). reflexivity.
  - split; [reflexivity|].
    apply (proj2 (proj2 (proj2 (proj2 (proj2 (@search_key_collides json_fragment)))))).
    reflexivity.
Defined.

(** ** More on the adapters *)

Section Further.
Context `{Json}.

Lemma append_assoc_string (a b c : string) : (a ++ b) ++ c = a ++ (b ++ c).
Proof.
  induction a as [|x a IH]; [done|].
  change (String x ((a ++ b) ++ c) = String x (a ++ (b ++ c))). by rewrite IH.
Qed.

Lemma append_empty_string (a : string) : a ++ EmptyString = a.
Proof.
  induction a as [|x a IH]; [done|].
  change (String x (a ++ EmptyString) = String x a). by rewrite IH.
Qed.

Lemma for_await_spec chunks acc :
  fst (for_await chunks acc) = acc ++ join (truthy_texts chunks)
  /\ length (snd (for_await chunks acc)) = length (truthy_texts chunks)
  /\ forall i,
      (i < length (truthy_texts chunks))%nat ->
      snd (for_await chunks acc) !! i = Some (acc ++ join (take (S i) (truthy_texts chunks))).
Proof.
  revert acc. induction chunks as [|[text|] rest IH]; intros acc; simpl.
  - rewrite append_empty_string. repeat split. intros i Hi. simpl in Hi. lia.
  - destruct (string_truthy text) eqn:Ht; [|apply IH].
    destruct (IH (acc ++ text)) as (Hf & Hl & Hi).
    destruct (for_await rest (acc ++ text)) as [final0 delivered0]. simpl in *.
    rewrite Hf, Hl, append_assoc_string. repeat split.
    intros [|i] Hlt; simpl.
    + by rewrite append_empty_string.
    + rewrite Hi by lia. by rewrite append_assoc_string.
  - apply IH.
Qed.

(** X1. When the stream ends normally, the adapter returns the non-empty
    chunk texts joined in order; it calls [onChunk] once per non-empty
    chunk, each time with the text accumulated so far, so the last text
    delivered is the text returned. *)
Theorem stream_delivers_running_text query chunks :
  let r := getRailAssistantResponseStream query (StreamFulfilled chunks None) in
  returned r = Normal (join (truthy_texts chunks))
  /\ length (delivered r) = length (truthy_texts chunks)
  /\ (forall i,
        (i < length (truthy_texts chunks))%nat ->
        delivered r !! i = Some (join (take (S i) (truthy_texts chunks))))
  /\ (truthy_texts chunks <> [] -> last (delivered r) = Some (join (truthy_texts chunks))).
Proof.
  cbv zeta. unfold getRailAssistantResponseStream, stream_body.
  destruct (for_await_spec chunks EmptyString) as (Hf & Hl & Hi).
  destruct (for_await chunks EmptyString) as [final0 delivered0]. simpl in *.
  subst final0. repeat split; [done|exact Hi|].
  intros Hne. rewrite last_lookup, Hl.
  destruct (truthy_texts chunks) as [|t texts] eqn:Ht; [done|].
  rewrite Hi by (simpl; lia). simpl. by rewrite take_ge by lia.
Qed.

(** X2. When the stream breaks after some chunks, everything delivered up
    to the break has been delivered as in an unbroken stream; the apology
    follows as one more delivery, and the accumulated text is dropped from
    the return value. *)
Theorem broken_stream_keeps_deliveries query chunks error :
  delivered (getRailAssistantResponseStream query (StreamFulfilled chunks (Some error)))
  = (delivered (getRailAssistantResponseStream query (StreamFulfilled chunks None))
     ++ [apology])%list
  /\ returned (getRailAssistantResponseStream query (StreamFulfilled chunks (Some error)))
     = Normal "Error".
Proof.
  unfold getRailAssistantResponseStream, stream_body.
  by destruct (for_await chunks EmptyString) as [final0 delivered0].
Qed.

Lemma alone_normal c settled s : exists v, result (alone c settled s) = Normal v.
Proof.
  destruct (invoke_normal c s) as [[v|req resume] Hp].
  - exists v. unfold alone, mbind, M_bind, bind. by rewrite Hp.
  - rewrite (alone_awaiting c s req resume settled Hp). simpl.
    unfold after. destruct settled as [e|text]; simpl; [by eexists|].
    destruct (JSON_parse_text _); [|by eexists].
    destruct (entry c) as [[m k]|]; by eexists.
Qed.

Lemma alone_final c settled s :
  final (alone c settled s) = s \/ final (alone c settled s) = final (after c settled s).
Proof.
  destruct (invoke_normal c s) as [[v|req resume] Hp].
  - left. destruct (resolved_quietly c s v Hp) as [Hs _].
    unfold alone, mbind, M_bind, bind. rewrite Hp. simpl. done.
  - right. by rewrite (alone_awaiting c s req resume settled Hp).
Qed.

(** X3. A call changes at most its own entry: every other key of its map,
    and every other map, holds after the call what it held before, whatever
    the response. *)
Theorem call_changes_only_its_entry c settled s m k :
  entry c <> Some (m, k) ->
  select m (final (alone c settled s)) !! k = select m s !! k.
Proof.
  intros Hne. destruct (alone_final c settled s) as [->| ->]; [done|].
  by apply after_other.
Qed.

(** X4. A response without text is not a failure: the waiting call parses
    its default text, returns the result and stores it under its key.  When
    no other call for the entry is waiting at that moment, every later call
    for the key gets the stored default from the cache, whatever happened in
    between. *)
Theorem empty_response_is_cached history j c m k text later settled' :
  JSON_parse_text "[]" = Some (VArray []) ->
  JSON_parse_text "null" = Some VNull ->
  task_call <$> inflight (steps boot history) !! j = Some c ->
  entry c = Some (m, k) ->
  text = None \/ text = Some EmptyString ->
  Forall (fun t => entry (task_call t) <> Some (m, k))
    (delete j (inflight (steps boot history))) ->
  finished (step (steps boot history) (Settle j (Fulfilled text)))
  = (finished (steps boot history) ++ [(c, Normal (fallback c))])%list
  /\ select m (store (step (steps boot history) (Settle j (Fulfilled text)))) !! k
     = Some (fallback c)
  /\ alone c settled'
       (store (steps (step (steps boot history) (Settle j (Fulfilled text))) later))
     = Run (Normal (fallback c))
         (store (steps (step (steps boot history) (Settle j (Fulfilled text))) later))
         [MapHas m k; MapGet m k].
Proof.
  intros Harr Hnull Hj He Ht Hn.
  assert (text_or text (default_text c) = default_text c) as Htext.
  { by destruct Ht as [->| ->]. }
  assert (JSON_parse_text (default_text c) = Some (fallback c)) as Hparse.
  { by destruct c. }
  assert (fails c (Fulfilled text) = false) as Hok.
  { unfold fails. by rewrite Htext, Hparse. }
  assert (forall s, result (after c (Fulfilled text) s) = Normal (fallback c)) as Hres.
  { intros s. unfold after. simpl. by rewrite Htext, Hparse, He. }
  destruct (settled_then_cached history j c m k _ [] Hj He Hok Hn) as (v & Hv & Hfin & Hk0).
  rewrite Hres in Hv. injection Hv as <-.
  destruct (settled_then_cached history j c m k _ later Hj He Hok Hn) as (v & Hv & _ & Hk).
  rewrite Hres in Hv. injection Hv as <-.
  split; [done|]. split; [done|].
  rewrite (alone_hit c m k (fallback c) settled' _ He Hk). by destruct c.
Qed.

Lemma entries_modify_insert m k v s :
  (entries s <= entries (modify m (insert k v) s) <= S (entries s))%nat.
Proof.
  unfold entries. destruct m; simpl; rewrite map_size_insert;
    match goal with |- context [?g !! k] => destruct (g !! k) end; simpl; lia.
Qed.

Lemma entries_after c settled s :
  (entries (final (after c settled s)) <= S (entries s))%nat.
Proof.
  unfold after. destruct settled as [e|text]; simpl; [lia|].
  destruct (JSON_parse_text _); simpl; [|lia].
  destruct (entry c) as [[m k]|]; simpl; [|lia]. apply entries_modify_insert.
Qed.

Lemma step_start_store sys c : store (step sys (Start c)) = store sys.
Proof.
  simpl. destruct (result (invoke c (store sys))) as [[v|req resume]|error] eqn:Hr; simpl.
  - by destruct (resolved_quietly c _ v Hr) as [-> _].
  - by destruct (awaited c _ req resume Hr) as (-> & _).
  - destruct (invoke_normal c (store sys)) as [p Hp]. congruence.
Qed.

Lemma steps_entries sys events :
  Forall faithful (inflight sys) ->
  (entries (store (steps sys events))
   <= entries (store sys) + length (List.filter is_settle events))%nat.
Proof.
  revert sys. induction events as [|e events IH]; intros sys Hs; simpl; [lia|].
  specialize (IH (step sys e) (step_faithful sys e Hs)).
  destruct e as [c|i settled].
  - rewrite step_start_store in IH. simpl in *. lia.
  - assert (entries (store (step sys (Settle i settled))) <= S (entries (store sys)))%nat.
    { simpl. destruct (inflight sys !! i) as [t|] eqn:Ht; simpl; [|lia].
      rewrite (Forall_lookup_1 _ _ _ _ Hs Ht). apply entries_after. }
    simpl in *. lia.
Qed.

(** X5. The cache grows only when a request settles: starting a call never
    writes, and after any history the five maps together hold at most as
    many entries as requests have settled. *)
Theorem cache_grows_by_settlements history :
  (entries (store (steps boot history)) <= length (List.filter is_settle history))%nat
  /\ forall c, store (step (steps boot history) (Start c)) = store (steps boot history).
Proof.
  split; [|intros c; apply step_start_store].
  pose proof (steps_entries boot history ltac:(constructor)) as Hb.
  assert (entries (store boot) = 0%nat) as Hz by reflexivity. lia.
Qed.

Lemma toLowerCase_idem s : toLowerCase (toLowerCase s) = toLowerCase s.
Proof. induction s as [|a s IH]; simpl; [done|]. by rewrite lower_char_idem, IH. Qed.

Lemma toLowerCase_length s : String.length (toLowerCase s) = String.length s.
Proof. induction s as [|a s IH]; simpl; [done|]. by rewrite IH. Qed.

Lemma toLowerCase_app a b : toLowerCase (a ++ b) = toLowerCase a ++ toLowerCase b.
Proof. induction a as [|x a IH]; simpl; [done|]. by rewrite IH. Qed.

Lemma contains_hyphen_app a b : contains_hyphen (a ++ "-" ++ b) = true.
Proof. induction a as [|x a IH]; simpl; [done|]. rewrite IH. apply orb_true_r. Qed.

Lemma entry_normal c m k : entry c = Some (m, k) -> normal_key m k.
Proof.
  destruct c; simpl; try discriminate.
  - destruct query as [|a [|b rest]]; simpl; try discriminate.
    intros [= <- <-]. simpl. rewrite !lower_char_idem, toLowerCase_idem, toLowerCase_length.
    split; [done|lia].
  - by intros [= <- <-].
  - by intros [= <- <-].
  - intros [= <- <-]. simpl. split; [|apply contains_hyphen_app].
    rewrite !toLowerCase_app, !toLowerCase_idem. done.
  - by intros [= <- <-].
Qed.

Lemma after_normal c settled s :
  (forall m k, is_Some (select m s !! k) -> normal_key m k) ->
  forall m k, is_Some (select m (final (after c settled s)) !! k) -> normal_key m k.
Proof.
  intros Hs m k. unfold after. destruct settled as [e|text]; simpl; [apply Hs|].
  destruct (JSON_parse_text _) as [v|]; [|apply Hs].
  destruct (entry c) as [[m' k']|] eqn:He; [|apply Hs]. simpl.
  destruct (decide (m' = m)) as [->|Hm].
  - rewrite select_modify_same. destruct (decide (k' = k)) as [->|Hk].
    + intros _. by apply (entry_normal c).
    + rewrite lookup_insert_ne by done. apply Hs.
  - rewrite select_modify_other by done. apply Hs.
Qed.

Lemma steps_normal sys events :
  Forall faithful (inflight sys) ->
  (forall m k, is_Some (select m (store sys) !! k) -> normal_key m k) ->
  forall m k, is_Some (select m (store (steps sys events)) !! k) -> normal_key m k.
Proof.
  revert sys. induction events as [|e events IH]; intros sys Hf Hs; simpl; [done|].
  apply IH; [by apply step_faithful|].
  destruct e as [c|i settled].
  - by rewrite step_start_store.
  - simpl. destruct (inflight sys !! i) as [t|] eqn:Ht; simpl; [|done].
    rewrite (Forall_lookup_1 _ _ _ _ Hf Ht). by apply after_normal.
Qed.

(** X6. After any history, every key of the suggestions map is lowercase
    and at least two characters long, so the query equal to the key finds
    it; every key of the search map is lowercase and contains a hyphen. *)
Theorem stored_keys_are_normal history k :
  (is_Some (suggestions (store (steps boot history)) !! k) ->
   toLowerCase k = k /\ (2 <= String.length k)%nat
   /\ entry (StationSuggestions k) = Some (Suggestions, k))
  /\ (is_Some (search (store (steps boot history)) !! k) ->
      toLowerCase k = k /\ contains_hyphen k = true).
Proof.
  assert (forall m k, is_Some (select m (store (steps boot history)) !! k) -> normal_key m k)
    as Hn.
  { apply steps_normal; [constructor|]. intros m k0 [v Hv]. by destruct m. }
  split.
  - intros Hk. destruct (Hn Suggestions k Hk) as [Hl Hlen]. repeat split; [done|done|].
    rewrite entry_suggestions by done. by rewrite Hl.
  - intros Hk. apply (Hn Search k Hk).
Qed.

(** X7. When the request of a waiting call is answered with text that
    parses, the parsed value is stored under the key of the call, whatever
    the entry held by then. *)
Theorem settlement_stores_its_value history i t m k text v :
  inflight (steps boot history) !! i = Some t ->
  entry (task_call t) = Some (m, k) ->
  JSON_parse_text (text_or text (default_text (task_call t))) = Some v ->
  select m (store (step (steps boot history) (Settle i (Fulfilled text)))) !! k = Some v
  /\ In (task_call t, Normal v)
       (finished (step (steps boot history) (Settle i (Fulfilled text)))).
Proof.
  intros Ht He Hp. simpl. rewrite Ht. simpl.
  rewrite (Forall_lookup_1 _ _ _ _ (boot_faithful history) Ht).
  unfold after. simpl. rewrite Hp, He. simpl. split.
  - by rewrite select_modify_same, lookup_insert_eq.
  - apply in_or_app. right. by left.
Qed.

End Further.

(** ** More on the component *)

Section Component.
Context `{Json} `{Host}.

Lemma invoke_request c s req resume :
  result (invoke c s) = Normal (Awaiting req resume) -> req = request_of c.
Proof.
  intros Hw. destruct (entry c) as [[m k]|] eqn:He.
  - destruct (select m s !! k) as [v|] eqn:Hk.
    + rewrite (invoke_hit c m k v s He Hk) in Hw. discriminate.
    + destruct c; simpl in He; try discriminate;
        [ unfold invoke, getStationSuggestionsAI in Hw;
          destruct (negb (string_truthy query) || (String.length query <? 2)%nat);
          [discriminate|]
        | unfold invoke, getCoachPositionAI in Hw
        | unfold invoke, getTrainScheduleAI in Hw
        | unfold invoke, searchTrainsAI in Hw
        | unfold invoke, getLiveStatusAI in Hw ];
        injection He as <- <-; simpl in Hk;
        unfold mbind, M_bind, bind, Map_has, generateContent in Hw; simpl in Hw;
        rewrite (has_false _ _ Hk) in Hw; simpl in Hw; by injection Hw as <- _.
  - destruct c; try discriminate.
    + rewrite (invoke_short query s He) in Hw. discriminate.
    + unfold invoke, getRecentAlertsAI, generateContent in Hw. simpl in Hw.
      by injection Hw as <- _.
Qed.

(** An awaited call inside a handler: the handler goes on with the value
    the adapter returns, and nothing is raised. *)
Lemma perform_await world sw call next c scr :
  exists v,
    result (alone call (world (request_of call)) c) = Normal v
    /\ screen_after (perform world sw (AwaitCall call next) c) scr
       = screen_after
           (perform world sw (next v) (final (alone call (world (request_of call)) c))) scr
    /\ forallb (fun h => negb (is_raised h)) (perform world sw (AwaitCall call next) c)
       = forallb (fun h => negb (is_raised h))
           (perform world sw (next v) (final (alone call (world (request_of call)) c))).
Proof.
  destruct (invoke_normal call c) as [[v|req resume] Hp].
  - exists v. destruct (resolved_quietly call c v Hp) as [Hs _].
    assert (alone call (world (request_of call)) c
            = Run (Normal v) c (trace (invoke call c) ++ [])) as ->.
    { unfold alone, mbind, M_bind, bind. rewrite Hp, Hs. done. }
    cbn [perform]. rewrite Hp, Hs. done.
  - pose proof (invoke_request call c req resume Hp) as ->.
    destruct (awaited call c _ resume Hp) as (Hs & Hr & _).
    rewrite (alone_awaiting call c _ resume _ Hp). simpl.
    destruct (alone_normal call (world (request_of call)) c) as [v Hv].
    rewrite (alone_awaiting call c _ resume _ Hp) in Hv. simpl in Hv.
    exists v. split; [done|].
    cbn [perform]. rewrite Hp, Hs. cbn. rewrite Hr, Hv. done.
Qed.

Lemma perform_await_raised world sw call next c :
  exists v,
    forallb (fun h => negb (is_raised h)) (perform world sw (AwaitCall call next) c)
    = forallb (fun h => negb (is_raised h))
        (perform world sw (next v) (final (alone call (world (request_of call)) c))).
Proof.
  destruct (perform_await world sw call next c
              (Screen home false VNull VNull None VNull VNull EmptyString [] false))
    as (v & _ & _ & Hr).
  by exists v.
Qed.

Lemma screen_do world sw u next c scr :
  screen_after (perform world sw (Do u next) c) scr
  = screen_after (perform world sw next c) (apply_update u scr).
Proof. done. Qed.

Lemma raised_do world sw u next c :
  forallb (fun h => negb (is_raised h)) (perform world sw (Do u next) c)
  = forallb (fun h => negb (is_raised h)) (perform world sw next c).
Proof. done. Qed.

Lemma string_truthy_ne s : s <> EmptyString -> string_truthy s = true.
Proof. by destruct s. Qed.

(** X8. Past its guard, each handler that fetches shows what its adapter
    returned for the text typed (or the train clicked), takes the view it
    announces, and ends with the loading flag off; no invocation ends in an
    unhandled rejection. *)
Theorem fetch_handlers_show_result_and_clear_loading world sw c scr :
  (forall st,
      searchFrom st <> EmptyString -> searchTo st <> EmptyString ->
      exists v,
        result (alone (SearchTrains (searchFrom st) (searchTo st))
                  (world (search_request (searchFrom st) (searchTo st))) c) = Normal v
        /\ scr_trainResults (screen_after (perform world sw (handleSearch st) c) scr) = v
        /\ scr_isLoading (screen_after (perform world sw (handleSearch st) c) scr) = false
        /\ scr_view (screen_after (perform world sw (handleSearch st) c) scr) = view_search)
  /\ (forall st,
      liveSearchInput st <> EmptyString ->
      exists v,
        result (alone (LiveStatus (liveSearchInput st))
                  (world (status_request (liveSearchInput st))) c) = Normal v
        /\ scr_liveStatus (screen_after (perform world sw (handleLiveSearch st) c) scr) = v
        /\ scr_isLoading (screen_after (perform world sw (handleLiveSearch st) c) scr) = false
        /\ scr_view (screen_after (perform world sw (handleLiveSearch st) c) scr) = live
        /\ number <$> scr_selectedTrain
                        (screen_after (perform world sw (handleLiveSearch st) c) scr)
           = Some (liveSearchInput st))
  /\ (forall train,
      exists v,
        result (alone (LiveStatus (number train)) (world (status_request (number train))) c)
        = Normal v
        /\ scr_liveStatus (screen_after (perform world sw (handleTrainClick train) c) scr) = v
        /\ scr_isLoading (screen_after (perform world sw (handleTrainClick train) c) scr) = false
        /\ scr_view (screen_after (perform world sw (handleTrainClick train) c) scr) = live
        /\ scr_selectedTrain (screen_after (perform world sw (handleTrainClick train) c) scr)
           = Some train)
  /\ (forall st,
      scheduleInput st <> EmptyString ->
      exists v,
        result (alone (TrainSchedule (scheduleInput st))
                  (world (schedule_request (scheduleInput st))) c) = Normal v
        /\ scr_scheduleData (screen_after (perform world sw (handleScheduleSearch st) c) scr) = v
        /\ scr_isLoading (screen_after (perform world sw (handleScheduleSearch st) c) scr)
           = false)
  /\ (forall st,
      coachInput st <> EmptyString ->
      exists v,
        result (alone (CoachPosition (coachInput st))
                  (world (coach_request (coachInput st))) c) = Normal v
        /\ scr_coachData (screen_after (perform world sw (handleCoachSearch st) c) scr) = v
        /\ scr_isLoading (screen_after (perform world sw (handleCoachSearch st) c) scr) = false)
  /\ (forall st train,
      Forall (fun h => forallb (fun e => negb (is_raised e)) (perform world sw h c) = true)
        [handleSearch st; handleLiveSearch st; handleTrainClick train;
         handleScheduleSearch st; handleCoachSearch st]).
Proof.
  repeat split.
  - intros st Hf Ht. unfold handleSearch.
    rewrite (string_truthy_ne _ Hf), (string_truthy_ne _ Ht). cbn [negb orb].
    rewrite !screen_do. edestruct (perform_await world sw) as (v & Hv & -> & _).
    exists v. split; [exact Hv|]. done.
  - intros st Hl. unfold handleLiveSearch.
    rewrite (string_truthy_ne _ Hl). cbn [negb].
    rewrite !screen_do. edestruct (perform_await world sw) as (v & Hv & -> & _).
    exists v. split; [exact Hv|]. done.
  - intros train. unfold handleTrainClick.
    rewrite !screen_do. edestruct (perform_await world sw) as (v & Hv & -> & _).
    exists v. split; [exact Hv|]. done.
  - intros st Hs. unfold handleScheduleSearch.
    rewrite (string_truthy_ne _ Hs). cbn [negb].
    rewrite !screen_do. edestruct (perform_await world sw) as (v & Hv & -> & _).
    exists v. split; [exact Hv|]. done.
  - intros st Hc. unfold handleCoachSearch.
    rewrite (string_truthy_ne _ Hc). cbn [negb].
    rewrite !screen_do. edestruct (perform_await world sw) as (v & Hv & -> & _).
    exists v. split; [exact Hv|]. done.
  - intros st train. repeat first [apply Forall_nil_2 | apply Forall_cons_2].
    + unfold handleSearch.
      destruct (negb (string_truthy (searchFrom st)) || negb (string_truthy (searchTo st)));
        [done|]. rewrite !raised_do.
      by edestruct (perform_await_raised world sw) as (v & ->).
    + unfold handleLiveSearch. destruct (negb (string_truthy (liveSearchInput st))); [done|].
      rewrite !raised_do.
      by edestruct (perform_await_raised world sw) as (v & ->).
    + unfold handleTrainClick. rewrite !raised_do.
      by edestruct (perform_await_raised world sw) as (v & ->).
    + unfold handleScheduleSearch. destruct (negb (string_truthy (scheduleInput st))); [done|].
      rewrite !raised_do.
      by edestruct (perform_await_raised world sw) as (v & ->).
    + unfold handleCoachSearch. destruct (negb (string_truthy (coachInput st))); [done|].
      rewrite !raised_do.
      by edestruct (perform_await_raised world sw) as (v & ->).
Qed.

Lemma trim_start_blank s : blank s = true -> trim_start s = EmptyString.
Proof.
  induction s as [|a s IH]; simpl; [done|].
  intros Hb. apply andb_true_iff in Hb as [-> Hs]. by apply IH.
Qed.

Lemma trim_start_not_blank s :
  blank s = false -> exists a rest, trim_start s = String a rest /\ is_space a = false.
Proof.
  induction s as [|a s IH]; simpl; [done|].
  destruct (is_space a) eqn:Ha; simpl; [apply IH|]. intros _. by exists a, s.
Qed.

Lemma trim_end_keeps a rest : is_space a = false -> string_truthy (trim_end (String a rest)) = true.
Proof. intros Ha. simpl. rewrite Ha. by destruct (trim_end rest). Qed.

Lemma trim_truthy s : string_truthy (trim s) = negb (blank s).
Proof.
  unfold trim. destruct (blank s) eqn:Hb.
  - by rewrite trim_start_blank.
  - destruct (trim_start_not_blank s Hb) as (a & rest & -> & Ha). by apply trim_end_keeps.
Qed.

(** X9. With an empty field a submit handler only cancels the form
    submission: no update, no call.  [handleSendMessage] does nothing at all
    while the bot is typing or when the message is white space only, and
    otherwise calls the assistant exactly once. *)
Theorem guarded_handlers_do_nothing world sw c st :
  (searchFrom st = EmptyString \/ searchTo st = EmptyString ->
   perform world sw (handleSearch st) c = [Updated PreventDefault])
  /\ (liveSearchInput st = EmptyString ->
      perform world sw (handleLiveSearch st) c = [Updated PreventDefault])
  /\ (scheduleInput st = EmptyString ->
      perform world sw (handleScheduleSearch st) c = [Updated PreventDefault])
  /\ (coachInput st = EmptyString ->
      perform world sw (handleCoachSearch st) c = [Updated PreventDefault])
  /\ (blank (botInput st) = true \/ isBotTyping st = true ->
      perform world sw (handleSendMessage st) c = [])
  /\ (blank (botInput st) = false -> isBotTyping st = false ->
      adapter_calls (perform world sw (handleSendMessage st) c) = 1%nat
      /\ In (CalledStream (botInput st)) (perform world sw (handleSendMessage st) c)).
Proof.
  split; [|split; [|split; [|split; [|split]]]].
  - intros [Hq|Hq]; unfold handleSearch; rewrite Hq; simpl; [done|].
    by rewrite orb_true_r.
  - intros Hq. unfold handleLiveSearch. by rewrite Hq.
  - intros Hq. unfold handleScheduleSearch. by rewrite Hq.
  - intros Hq. unfold handleCoachSearch. by rewrite Hq.
  - intros Hq. unfold handleSendMessage. rewrite trim_truthy.
    destruct Hq as [-> | ->]; simpl; [done|]. by rewrite orb_true_r.
  - intros Hb Ht. unfold handleSendMessage. rewrite trim_truthy, Hb, Ht.
    cbn [negb orb perform]. split; [|do 4 right; by left].
    destruct (getRailAssistantResponseStream _ _) as [req texts [v|error]];
      cbn [issued delivered returned];
      rewrite !adapter_calls_cons, adapter_calls_updates, !adapter_calls_cons; done.
Qed.

Lemma replace_last_bot_twice text text' prev :
  replace_last_bot text' (replace_last_bot text prev) = replace_last_bot text' prev.
Proof.
  unfold replace_last_bot. destruct (last prev) as [[[|] old]|] eqn:Hl; rewrite ?Hl; try done.
  by rewrite last_snoc, removelast_last.
Qed.

(** X10. The updater that a chunk triggers never changes the number of
    messages nor any message but the last; it replaces the text of the
    last message when that is the bot's and leaves a user's message as it
    is; of two updates in a row only the later one shows. *)
Theorem chunk_update_touches_only_last_bot text prev :
  length (replace_last_bot text prev) = length prev
  /\ removelast (replace_last_bot text prev) = removelast prev
  /\ (forall old, last prev = Some (bot, old) -> last (replace_last_bot text prev) = Some (bot, text))
  /\ (forall old, last prev = Some (user, old) -> replace_last_bot text prev = prev)
  /\ (forall text', replace_last_bot text' (replace_last_bot text prev)
                    = replace_last_bot text' prev).
Proof.
  repeat split.
  - unfold replace_last_bot. destruct (last prev) as [[[|] old]|] eqn:Hl; try done.
    apply last_Some in Hl as [l' ->]. rewrite removelast_last. by rewrite !length_app.
  - unfold replace_last_bot. destruct (last prev) as [[[|] old]|] eqn:Hl; try done.
    by rewrite removelast_last.
  - intros old Hl. unfold replace_last_bot. rewrite Hl. apply last_snoc.
  - intros old Hl. unfold replace_last_bot. by rewrite Hl.
  - intros text'. apply replace_last_bot_twice.
Qed.

Lemma apply_replace_twice text text' scr :
  apply_update (ReplaceLastBot text') (apply_update (ReplaceLastBot text) scr)
  = apply_update (ReplaceLastBot text') scr.
Proof. simpl. by rewrite replace_last_bot_twice. Qed.

Lemma screen_after_app l1 l2 scr :
  screen_after (l1 ++ l2) scr = screen_after l2 (screen_after l1 scr).
Proof.
  revert scr. induction l1 as [|h l1 IH]; intros scr; simpl; [done|].
  destruct h; apply IH.
Qed.

Lemma screen_after_chunks texts text scr :
  screen_after (map (fun t => Updated (ReplaceLastBot t)) texts)
    (apply_update (ReplaceLastBot text) scr)
  = apply_update (ReplaceLastBot (default text (last texts))) scr.
Proof.
  revert text. induction texts as [|t texts IH]; intros text; [done|].
  cbn [map screen_after]. rewrite apply_replace_twice, IH.
  destruct texts as [|t' l]; [done|]. rewrite last_cons_cons.
  destruct (last (t' :: l)) eqn:Hl; [done|]. apply last_None in Hl. discriminate.
Qed.

(** X11. A message that passes the guard adds exactly two messages to the
    chat: the user's text as typed, and the bot's reply; the reply ends as
    the joined text of the chunks when the stream ends normally, and as the
    apology when the request or the stream fails.  The input is emptied and
    the typing flag is off at the end. *)
Theorem sent_message_extends_chat world sw c scr st :
  blank (botInput st) = false ->
  isBotTyping st = false ->
  exists reply,
    scr_chatMessages (screen_after (perform world sw (handleSendMessage st) c) scr)
    = (scr_chatMessages scr ++ [(user, botInput st); (bot, reply)])%list
    /\ scr_isBotTyping (screen_after (perform world sw (handleSendMessage st) c) scr) = false
    /\ scr_botInput (screen_after (perform world sw (handleSendMessage st) c) scr) = EmptyString
    /\ (stream_failed (sw (assistant_request (botInput st))) = true -> reply = apology)
    /\ (forall chunks,
          sw (assistant_request (botInput st)) = StreamFulfilled chunks None ->
          reply = join (truthy_texts chunks)).
Proof.
  intros Hb Ht.
  set (r := getRailAssistantResponseStream (botInput st) (sw (assistant_request (botInput st)))).
  exists (default EmptyString (last (delivered r))).
  assert (exists v, returned r = Normal v) as [v Hv].
  { subst r. unfold getRailAssistantResponseStream.
    destruct (stream_body _) as [[?|?] ?]; by eexists. }
  assert (screen_after (perform world sw (handleSendMessage st) c) scr
          = apply_update (SetIsBotTyping false)
              (apply_update (ReplaceLastBot (default EmptyString (last (delivered r))))
                 (apply_update (AppendChat bot EmptyString)
                    (apply_update (SetIsBotTyping true)
                       (apply_update (AppendChat user (botInput st))
                          (apply_update (SetBotInput EmptyString) scr)))))) as ->.
  { unfold handleSendMessage. rewrite trim_truthy, Hb, Ht. cbn [negb orb].
    rewrite !screen_do. cbn [perform]. fold r. rewrite Hv. cbn [screen_after].
    rewrite screen_after_app.
    assert (apply_update (AppendChat bot EmptyString)
              (apply_update (SetIsBotTyping true)
                 (apply_update (AppendChat user (botInput st))
                    (apply_update (SetBotInput EmptyString) scr)))
            = apply_update (ReplaceLastBot EmptyString)
                (apply_update (AppendChat bot EmptyString)
                   (apply_update (SetIsBotTyping true)
                      (apply_update (AppendChat user (botInput st))
                         (apply_update (SetBotInput EmptyString) scr))))) as Hfix.
    { simpl. unfold replace_last_bot. by rewrite last_snoc, removelast_last. }
    rewrite Hfix at 1. rewrite screen_after_chunks. done. }
  repeat split.
  - simpl. unfold replace_last_bot. rewrite last_snoc, removelast_last.
    by rewrite <- app_assoc.
  - intros Hf. subst r. unfold getRailAssistantResponseStream, stream_body.
    destruct (sw _) as [e|chunks [e|]]; try discriminate; [done|].
    destruct (for_await chunks EmptyString) as [final0 delivered0]. simpl.
    by rewrite last_snoc.
  - intros chunks Hc. subst r. rewrite Hc.
    unfold getRailAssistantResponseStream, stream_body.
    destruct (for_await_spec chunks EmptyString) as (Hf & Hl & Hi).
    destruct (for_await chunks EmptyString) as [final0 delivered0]. simpl in *.
    rewrite last_lookup, Hl.
    destruct (truthy_texts chunks) as [|t texts] eqn:Htx.
    + simpl in Hl. apply nil_length_inv in Hl. by rewrite Hl.
    + rewrite Hi by (simpl; lia). simpl. by rewrite take_ge by lia.
Qed.

Lemma only_digits_all raw : all_digits (only_digits raw) = true.
Proof.
  induction raw as [|a raw IH]; simpl; [done|].
  destruct (is_digit a) eqn:Ha; simpl; [by rewrite Ha|done].
Qed.

Lemma only_digits_fixed raw : all_digits raw = true -> only_digits raw = raw.
Proof.
  induction raw as [|a raw IH]; simpl; [done|].
  intros Hd. apply andb_true_iff in Hd as [-> Hr]. by rewrite IH.
Qed.

Lemma only_digits_length raw : (String.length (only_digits raw) <= String.length raw)%nat.
Proof. induction raw as [|a raw IH]; simpl; [done|]. destruct (is_digit a); simpl; lia. Qed.

(** X12. The filter on the train-number and PNR boxes keeps exactly the
    digits: what it returns is all digits, it changes nothing in a text
    that is all digits (so it is idempotent), and it never lengthens.  The
    live-search text therefore holds only digits after any sequence of
    typing and history picks, and so does the PNR text. *)
Theorem digit_filter_keeps_digits :
  (forall raw, all_digits (only_digits raw) = true)
  /\ (forall raw, all_digits raw = true <-> only_digits raw = raw)
  /\ (forall raw, only_digits (only_digits raw) = only_digits raw)
  /\ (forall raw, (String.length (only_digits raw) <= String.length raw)%nat)
  /\ (forall events, all_digits (foldl live_input_step EmptyString events) = true)
  /\ (forall raws, all_digits (foldl pnr_input_step EmptyString raws) = true).
Proof.
  split; [apply only_digits_all|]. split; [|split; [|split; [|split]]].
  - intros raw. split; [apply only_digits_fixed|]. intros <-. apply only_digits_all.
  - intros raw. apply only_digits_fixed, only_digits_all.
  - apply only_digits_length.
  - intros events.
    assert (forall start, all_digits start = true ->
              all_digits (foldl live_input_step start events) = true) as Hgen.
    { induction events as [|e events IH]; intros start Hs; simpl; [done|].
      apply IH. destruct e; simpl; [apply only_digits_all|done|done]. }
    by apply Hgen.
  - intros raws.
    assert (forall start, all_digits start = true ->
              all_digits (foldl pnr_input_step start raws) = true) as Hgen.
    { induction raws as [|e raws IH]; intros start Hs; simpl; [done|].
      apply IH. apply only_digits_all. }
    by apply Hgen.
Qed.

Lemma suggestions_lookup_first query settled s :
  (2 <= String.length query)%nat ->
  exists rest v,
    trace (alone (StationSuggestions query) settled s)
    = MapHas Suggestions (toLowerCase query) :: rest
    /\ result (alone (StationSuggestions query) settled s) = Normal v.
Proof.
  intros Hq. pose proof (entry_suggestions query Hq) as He.
  destruct (suggestions s !! toLowerCase query) as [v|] eqn:Hk.
  - rewrite (alone_hit _ Suggestions _ v settled s He Hk). by eexists _, _.
  - destruct (alone_miss _ Suggestions _ settled s He Hk) as (req & ->). simpl.
    destruct (alone_normal (StationSuggestions query) settled s) as [v Hv].
    destruct (alone_miss _ Suggestions _ settled s He Hk) as (req' & Ha).
    rewrite Ha in Hv. simpl in Hv. by eexists _, _.
Qed.

(** X13. The timer of a suggestion effect does nothing for a text shorter
    than two characters or a closed list: the suggestions shown stay, the
    cache is not touched.  Otherwise it calls [getStationSuggestionsAI],
    which then always starts by looking the text up in the cache (its own
    exit for short queries is never taken from here), and the suggestions
    become what the adapter returns. *)
Theorem suggestion_timer_asks_from_two_characters world text show current s :
  ((String.length text < 2)%nat \/ show = false ->
   fromSuggestionsTimer text show world current s = Run (Normal current) s []
   /\ toSuggestionsTimer text show world current s = Run (Normal current) s [])
  /\ ((2 <= String.length text)%nat -> show = true ->
      fromSuggestionsTimer text show world current s
      = alone (StationSuggestions text) (world (suggestions_request text)) s
      /\ toSuggestionsTimer text show world current s
         = alone (StationSuggestions text) (world (suggestions_request text)) s
      /\ exists rest v,
          trace (alone (StationSuggestions text) (world (suggestions_request text)) s)
          = MapHas Suggestions (toLowerCase text) :: rest
          /\ result (alone (StationSuggestions text) (world (suggestions_request text)) s)
             = Normal v).
Proof.
  split.
  - intros Hg. unfold fromSuggestionsTimer, toSuggestionsTimer.
    assert ((2 <=? String.length text)%nat && show = false) as ->; [|done].
    destruct Hg as [Hl| ->]; [|apply andb_false_r].
    apply andb_false_iff. left. apply Nat.leb_gt. lia.
  - intros Hl ->. unfold fromSuggestionsTimer, toSuggestionsTimer.
    assert ((2 <=? String.length text)%nat = true) as -> by (apply Nat.leb_le; lia).
    repeat split. by apply suggestions_lookup_first.
Qed.

Lemma alone_alerts settled c :
  result (alone RecentAlerts settled c) = result (after RecentAlerts settled c).
Proof.
  destruct (invoke_alerts c) as (resume & Hi & Hr).
  assert (result (invoke RecentAlerts c) = Normal (Awaiting alerts_request resume)) as Hw
    by (by rewrite Hi).
  by rewrite (alone_awaiting RecentAlerts c _ resume settled Hw).
Qed.

(** X14. The alerts effect runs only on the alerts view and always ends
    with the loading flag off.  When the request fails, the alerts shown
    and the stored copy stay as they were and nothing is logged.  The
    stored copy changes only to the text of the alerts then shown. *)
Theorem alerts_effect_keeps_alerts_on_failure world c g :
  (forall v, v <> alerts -> alerts_effect v world c g = g)
  /\ sig_isLoading (alerts_effect alerts world c g) = false
  /\ (fails RecentAlerts (world alerts_request) = true ->
      alerts_effect alerts world c g
      = Signals (sig_alerts g) false (sig_storage g) (sig_console g))
  /\ (sig_storage (alerts_effect alerts world c g) <> sig_storage g ->
      sig_storage (alerts_effect alerts world c g) !! "voyager_alerts_cache"
      = Some (JSON_stringify (sig_alerts (alerts_effect alerts world c g))))
  /\ (forall first others,
      result (alone RecentAlerts (world alerts_request) c) = Normal (VArray (first :: others)) ->
      sig_alerts (alerts_effect alerts world c g) = VArray (first :: others)).
Proof.
  split; [|split; [|split; [|split]]].
  - intros v Hv. by destruct v.
  - unfold alerts_effect.
    destruct (result (alone RecentAlerts (world alerts_request) c)) as [data|err]; [|done].
    unfold alerts_then. destruct (truthy data && length_positive data); [|done].
    simpl. by destruct (storage_accepts _ _ _).
  - intros Hf. unfold alerts_effect. rewrite alone_alerts.
    destruct (after_fails RecentAlerts _ c Hf) as (-> & _). done.
  - unfold alerts_effect.
    destruct (result (alone RecentAlerts (world alerts_request) c)) as [data|err]; [|done].
    unfold alerts_then. destruct (truthy data && length_positive data); [|done].
    simpl. destruct (storage_accepts _ _ _); simpl; [|done].
    intros _. apply lookup_insert_eq.
  - intros first others Hr. unfold alerts_effect. rewrite Hr.
    unfold alerts_then. simpl. by destruct (storage_accepts _ _ _).
Qed.

(** X15. [getCoachColor] gives different classes to different coach types
    of the eight it knows, and the class of a general coach to every other
    string. *)
Theorem coach_colours_distinguish_types :
  (forall a b, In a coach_types -> In b coach_types -> getCoachColor a = getCoachColor b -> a = b)
  /\ (forall t, ~ In t coach_types -> getCoachColor t = getCoachColor "general").
Proof.
  split.
  - intros a b Ha Hb. unfold coach_types in *. simpl in Ha, Hb.
    repeat (destruct Ha as [<-|Ha]; [|]); try contradiction;
      repeat (destruct Hb as [<-|Hb]; [|]); try contradiction;
      vm_compute; intros Hc; first [reflexivity | discriminate Hc].
  - intros t Ht. unfold getCoachColor.
    repeat match goal with
    | |- context [String.eqb t ?x] =>
        let E := fresh in
        destruct (String.eqb_spec t x) as [E|E];
          [exfalso; apply Ht; rewrite E; unfold coach_types; simpl; tauto|]
    end.
    reflexivity.
Qed.

End Component.



(** ** More concrete runs *)

Example stringify_fragment_stations :
  stringify_fragment (VArray [VString "12951 Mumbai Rajdhani"; VNull; VBool true])
  = "[" ++ quoted "12951 Mumbai Rajdhani" ++ ",null,true]".
Proof. reflexivity. Qed.

Lemma stream_delivers_running_text_witness :
  let chunks := [Some "Train "; None; Some EmptyString; Some "12951 is on time."] in
  let r := getRailAssistantResponseStream "Is 12951 late?" (StreamFulfilled chunks None) in
  delivered r !! 1%nat = Some "Train 12951 is on time."
  /\ last (delivered r) = Some "Train 12951 is on time.".
Proof.
  destruct (stream_delivers_running_text "Is 12951 late?"
              [Some "Train "; None; Some EmptyString; Some "12951 is on time."])
    as (_ & _ & Hi & Hl).
  split; [apply (Hi 1%nat); simpl; lia|apply Hl; discriminate].
Defined.

Lemma call_changes_only_its_entry_witness :
  let s := final (@alone json_fragment (TrainSchedule "12951") (Fulfilled (Some rajdhani_text))
                    empty_cache) in
  entry (LiveStatus "12951") <> Some (Schedules, "12951")
  /\ select Schedules
       (final (@alone json_fragment (LiveStatus "12951") (Fulfilled (Some "null")) s))
     !! "12951"
     = select Schedules s !! "12951".
Proof.
  split; [discriminate|].
  apply (@call_changes_only_its_entry json_fragment). discriminate.
Defined.

Lemma empty_response_is_cached_witness :
  let c := LiveStatus "12951" in
  let sys := @steps json_fragment boot [Start c] in
  let later := [Start (SearchTrains "NDLS" "BCT"); Settle 0 (Rejected "503")] in
  let sys' := @steps json_fragment (@step json_fragment sys (Settle 0 (Fulfilled None))) later in
  finished (@step json_fragment sys (Settle 0 (Fulfilled None))) = [(c, Normal VNull)]
  /\ status (store (@step json_fragment sys (Settle 0 (Fulfilled None)))) !! "12951" = Some VNull
  /\ @alone json_fragment c (Rejected "503") (store sys')
     = Run (Normal VNull) (store sys') [MapHas Status "12951"; MapGet Status "12951"].
Proof.
  apply (@empty_response_is_cached json_fragment [Start (LiveStatus "12951")] 0%nat
           (LiveStatus "12951") Status "12951" None
           [Start (SearchTrains "NDLS" "BCT"); Settle 0 (Rejected "503")] (Rejected "503")).
  - reflexivity.
  - reflexivity.
  - reflexivity.
  - reflexivity.
  - by left.
  - simpl. apply Forall_nil_2.
Defined.

Lemma stored_keys_are_normal_witness :
  let history := [Start (StationSuggestions "DE"); Settle 0 (Fulfilled (Some rajdhani_text))] in
  is_Some (suggestions (store (@steps json_fragment boot history)) !! "de")
  /\ toLowerCase "de" = "de"
  /\ entry (StationSuggestions "de") = Some (Suggestions, "de").
Proof.
  assert (is_Some (suggestions
            (store (@steps json_fragment boot
                      [Start (StationSuggestions "DE");
                       Settle 0 (Fulfilled (Some rajdhani_text))])) !! "de")) as Hk.
  { eexists. reflexivity. }
  split; [exact Hk|].
  destruct (proj1 (@stored_keys_are_normal json_fragment _ "de") Hk) as (Hl & _ & He).
  split; [exact Hl|exact He].
Defined.

Lemma settlement_stores_its_value_witness :
  let c := SearchTrains "NDLS" "BCT" in
  let history := [Start c; Start c; Settle 0 (Fulfilled (Some rajdhani_text))] in
  search (store (@steps json_fragment boot history)) !! "ndls-bct"
  = Some (VArray [VString "12951 Mumbai Rajdhani"])
  /\ search (store (@step json_fragment (@steps json_fragment boot history)
                      (Settle 0 (Fulfilled (Some duronto_text))))) !! "ndls-bct"
     = Some (VArray [VString "12263 Pune Duronto"]).
Proof.
  split; [reflexivity|].
  exact (proj1 (@settlement_stores_its_value json_fragment
                  [Start (SearchTrains "NDLS" "BCT"); Start (SearchTrains "NDLS" "BCT");
                   Settle 0 (Fulfilled (Some rajdhani_text))]
                  0%nat _ Search "ndls-bct" (Some duronto_text) _ eq_refl eq_refl eq_refl)).
Defined.

Lemma fetch_handlers_show_result_and_clear_loading_witness :
  let st := Ui "NDLS" "BCT" EmptyString EmptyString EmptyString EmptyString false in
  let world := fun _ : request => Fulfilled (Some rajdhani_text) in
  let sw := fun _ : request => StreamRejected "503" in
  let scr := screen_after (@perform json_fragment world sw (handleSearch st) empty_cache)
               initial_screen in
  scr_trainResults scr = VArray [VString "12951 Mumbai Rajdhani"]
  /\ scr_isLoading scr = false
  /\ scr_view scr = view_search.
Proof.
  destruct (proj1 (@fetch_handlers_show_result_and_clear_loading json_fragment
                     (fun _ => Fulfilled (Some rajdhani_text)) (fun _ => StreamRejected "503")
                     empty_cache initial_screen)
              (Ui "NDLS" "BCT" EmptyString EmptyString EmptyString EmptyString false)
              ltac:(discriminate) ltac:(discriminate)) as (v & Hv & Hr & Hl & Hw).
  injection Hv as <-. split; [exact Hr|]. split; [exact Hl|exact Hw].
Defined.

Lemma guarded_handlers_do_nothing_witness :
  let st := Ui EmptyString "BCT" EmptyString EmptyString EmptyString "   " false in
  @perform json_fragment (fun _ => Rejected "503") (fun _ => StreamRejected "503")
    (handleSearch st) empty_cache = [Updated PreventDefault]
  /\ @perform json_fragment (fun _ => Rejected "503") (fun _ => StreamRejected "503")
       (handleSendMessage st) empty_cache = [].
Proof.
  pose proof (@guarded_handlers_do_nothing json_fragment
                (fun _ => Rejected "503") (fun _ => StreamRejected "503") empty_cache
                (Ui EmptyString "BCT" EmptyString EmptyString EmptyString "   " false))
    as (Hs & _ & _ & _ & Hm & _).
  split; [apply Hs; by left|apply Hm; by left].
Defined.

Lemma chunk_update_touches_only_last_bot_witness :
  last (replace_last_bot "Hello" [(user, "hi"); (bot, "Hel")]) = Some (bot, "Hello")
  /\ replace_last_bot "Hello" [(bot, "Welcome"); (user, "hi")] = [(bot, "Welcome"); (user, "hi")].
Proof.
  split.
  - apply (proj1 (proj2 (proj2 (chunk_update_touches_only_last_bot "Hello"
                                   [(user, "hi"); (bot, "Hel")]))) "Hel").
    reflexivity.
  - apply (proj1 (proj2 (proj2 (proj2 (chunk_update_touches_only_last_bot "Hello"
                                          [(bot, "Welcome"); (user, "hi")])))) "hi").
    reflexivity.
Defined.

Lemma sent_message_extends_chat_witness :
  let st := Ui EmptyString EmptyString EmptyString EmptyString EmptyString "Is 12951 late?"
              false in
  let sw := fun _ : request => StreamFulfilled [Some "No, "; Some "on time."] None in
  exists reply,
    scr_chatMessages
      (screen_after (@perform json_fragment (fun _ => Rejected "503") sw (handleSendMessage st)
                       empty_cache) initial_screen)
    = (scr_chatMessages initial_screen ++ [(user, "Is 12951 late?"); (bot, reply)])%list
    /\ reply = "No, on time.".
Proof.
  destruct (@sent_message_extends_chat json_fragment (fun _ => Rejected "503")
              (fun _ => StreamFulfilled [Some "No, "; Some "on time."] None)
              empty_cache initial_screen
              (Ui EmptyString EmptyString EmptyString EmptyString EmptyString "Is 12951 late?"
                 false)
              eq_refl eq_refl) as (reply & Hc & _ & _ & _ & Hj).
  exists reply. split; [exact Hc|]. apply (Hj [Some "No, "; Some "on time."]). reflexivity.
Defined.

Lemma digit_filter_keeps_digits_witness :
  all_digits "12002" = true /\ only_digits "12002" = "12002".
Proof.
  split; [reflexivity|].
  apply (proj1 (proj1 (proj2 digit_filter_keeps_digits) "12002")). reflexivity.
Defined.

Lemma suggestion_timer_asks_from_two_characters_witness :
  @fromSuggestionsTimer json_fragment "d" true (fun _ => Rejected "503") (VArray [VString "old"])
    empty_cache
  = Run (Normal (VArray [VString "old"])) empty_cache []
  /\ exists rest v,
      trace (@alone json_fragment (StationSuggestions "de") (Rejected "503") empty_cache)
      = MapHas Suggestions "de" :: rest
      /\ result (@alone json_fragment (StationSuggestions "de") (Rejected "503") empty_cache)
         = Normal v.
Proof.
  split.
  - apply (proj1 (@suggestion_timer_asks_from_two_characters json_fragment
                    (fun _ => Rejected "503") "d" true (VArray [VString "old"]) empty_cache)).
    left. simpl. lia.
  - apply (proj2 (@suggestion_timer_asks_from_two_characters json_fragment
                    (fun _ => Rejected "503") "de" true (VArray [VString "old"]) empty_cache));
      [simpl; lia|reflexivity].
Defined.

Lemma alerts_effect_keeps_alerts_on_failure_witness :
  let g := Signals (VArray [VString "Fog: 12951 delayed by 40 min"]) false
             (<["voyager_alerts_cache" := fog_text]> ∅) [] in
  @fails json_fragment RecentAlerts (Rejected "503") = true
  /\ @alerts_effect json_fragment test_host alerts (fun _ => Rejected "503") empty_cache g = g.
Proof.
  split; [reflexivity|].
  exact (proj1 (proj2 (proj2 (@alerts_effect_keeps_alerts_on_failure json_fragment test_host
                                (fun _ => Rejected "503") empty_cache
                                (Signals (VArray [VString "Fog: 12951 delayed by 40 min"]) false
                                   (<["voyager_alerts_cache" := fog_text]> ∅) []))))
           eq_refl).
Defined.

Lemma coach_colours_distinguish_types_witness :
  ~ In "chair" coach_types /\ getCoachColor "chair" = "bg-orange-400 text-black".
Proof.
  assert (~ In "chair" coach_types) as Hn.
  { unfold coach_types. simpl. intros Hin.
    repeat (destruct Hin as [Hin|Hin]; [discriminate Hin|]). exact Hin. }
  split; [exact Hn|]. apply (proj2 coach_colours_distinguish_types _ Hn).
Defined.

(** ** Order of settlements, reloads, repeated searches *)

Section Composition.
Context `{Json} `{Host}.

Lemma modify_commute m1 k1 v1 m2 k2 v2 s :
  (m1, k1) <> (m2, k2) ->
  modify m1 (insert k1 v1) (modify m2 (insert k2 v2) s)
  = modify m2 (insert k2 v2) (modify m1 (insert k1 v1) s).
Proof.
  intros Hne. destruct m1, m2; simpl; try done;
    (rewrite insert_insert_ne; [done|congruence]).
Qed.

Lemma after_commute c1 c2 o1 o2 s :
  (entry c1 = entry c2 -> entry c1 = None) ->
  final (after c2 o2 (final (after c1 o1 s))) = final (after c1 o1 (final (after c2 o2 s))).
Proof.
  intros Hne. unfold after.
  destruct o1 as [e1|t1], o2 as [e2|t2]; simpl; try done.
  destruct (JSON_parse_text (text_or t1 _)) as [v1|], (JSON_parse_text (text_or t2 _)) as [v2|];
    simpl; try done.
  destruct (entry c1) as [[m1 k1]|] eqn:H1, (entry c2) as [[m2 k2]|] eqn:H2; simpl; try done.
  symmetry. apply modify_commute. intros [= -> ->]. by specialize (Hne eq_refl).
Qed.

(** X16. Two waiting calls for different entries may be answered in either
    order: the cache ends the same. *)
Theorem settlements_for_different_entries_commute history i j ti tj oi oj :
  inflight (steps boot history) !! i = Some ti ->
  inflight (steps boot history) !! S j = Some tj ->
  (i <= j)%nat ->
  (entry (task_call ti) = entry (task_call tj) -> entry (task_call ti) = None) ->
  store (step (step (steps boot history) (Settle i oi)) (Settle j oj))
  = store (step (step (steps boot history) (Settle (S j) oj)) (Settle i oi)).
Proof.
  intros Hi Hj Hij Hne.
  pose proof (boot_faithful history) as Hf.
  pose proof (Forall_lookup_1 _ _ _ _ Hf Hi) as Hti.
  pose proof (Forall_lookup_1 _ _ _ _ Hf Hj) as Htj.
  simpl. rewrite Hi, Hj. simpl.
  rewrite list_lookup_delete_ge, Hj by done.
  rewrite list_lookup_delete_lt, Hi by lia. simpl.
  rewrite !Hti, !Htj. by apply after_commute.
Qed.

(** X17. What the alerts effect stores is what the next mount shows: after
    a fetch that returned a non-empty array and a write that the store
    took, the initial alerts of a reload are the alerts shown, provided the
    host's parser reads back what its serializer wrote.  With nothing
    stored, the initial alerts are an empty array. *)
Theorem alerts_survive_reload world c g first others :
  result (alone RecentAlerts (world alerts_request) c) = Normal (VArray (first :: others)) ->
  storage_accepts (sig_storage g) "voyager_alerts_cache"
    (JSON_stringify (VArray (first :: others))) = true ->
  JSON_stringify (VArray (first :: others)) <> EmptyString ->
  JSON_parse_text (JSON_stringify (VArray (first :: others))) = Some (VArray (first :: others)) ->
  initial_alerts (sig_storage (alerts_effect alerts world c g))
  = Normal (sig_alerts (alerts_effect alerts world c g))
  /\ sig_alerts (alerts_effect alerts world c g) = VArray (first :: others)
  /\ initial_alerts ∅ = Normal (VArray []).
Proof.
  intros Hr Ha Hne Hp. unfold alerts_effect. rewrite Hr. unfold alerts_then. simpl.
  rewrite Ha. simpl. repeat split.
  unfold initial_alerts. rewrite lookup_insert_eq, Hp.
  by destruct (JSON_stringify _).
Qed.



End Composition.

Lemma settlements_for_different_entries_commute_witness :
  let history := [Start (LiveStatus "12951"); Start (SearchTrains "NDLS" "BCT")] in
  let sys := @steps json_fragment boot history in
  store (@step json_fragment (@step json_fragment sys (Settle 0 (Fulfilled (Some "null"))))
           (Settle 0 (Fulfilled (Some rajdhani_text))))
  = store (@step json_fragment (@step json_fragment sys (Settle 1 (Fulfilled (Some rajdhani_text))))
             (Settle 0 (Fulfilled (Some "null")))).
Proof.
  exact (@settlements_for_different_entries_commute json_fragment
           [Start (LiveStatus "12951"); Start (SearchTrains "NDLS" "BCT")]
           0%nat 0%nat _ _ (Fulfilled (Some "null")) (Fulfilled (Some rajdhani_text))
           eq_refl eq_refl (le_n 0) ltac:(discriminate)).
Defined.

Lemma alerts_survive_reload_witness :
  let world := fun _ : request => Fulfilled (Some fog_text) in
  let g := Signals (VArray []) false ∅ [] in
  @initial_alerts json_fragment
    (sig_storage (@alerts_effect json_fragment test_host alerts world empty_cache g))
  = Normal (VArray [VString "Fog: 12951 delayed by 40 min"]).
Proof.
  exact (proj1 (@alerts_survive_reload json_fragment test_host
                  (fun _ => Fulfilled (Some fog_text)) empty_cache
                  (Signals (VArray []) false ∅ [])
                  (VString "Fog: 12951 delayed by 40 min") []
                  eq_refl eq_refl ltac:(discriminate) eq_refl)).
Defined.

